(** * DETReg driver code: [bash.py] and [engine.py]

    A shallow embedding of the launcher script and of the training,
    evaluation and visualisation loops.  The loops are written in a small
    monad that records every call into an external collaborator (model,
    criterion, optimizer, evaluator, plotting library) in a trace and that
    ends in a returned value, a raised exception or a process exit. *)

From Stdlib Require Import ZArith List Ascii String QArith Lia.
From stdpp Require Import base list strings gmap pretty.
Import ListNotations.
Local Open Scope string_scope.
Local Open Scope list_scope.
Local Open Scope Z_scope.

(** ** bash.py *)

Module Bash.

(** [subprocess.run(command)] is the only effect of the script. *)
Inductive effect := SubprocessRun (argv : list string).

Definition EXP_DIR : string := "exps/DETReg_fine_tune_full_pascal".

(** [PY_ARGS = sys.argv[1:]] *)
Definition PY_ARGS (sys_argv : list string) : list string := drop 1 sys_argv.

Definition command (sys_argv : list string) : list string :=
  [ "./configs/DETReg_fine_tune_full_pascal.sh";
    "--resume"; "exps/DETReg_fine_tune_full_pascal/checkpoint0099.pth";
    "--viz" ] ++ PY_ARGS sys_argv.

(** The module body: what running the script does. *)
Definition main (sys_argv : list string) : list effect :=
  [ SubprocessRun (command sys_argv) ].

End Bash.

(** ** Scalars

    Tensor elements, numpy elements and Python floats are kept abstract: the
    driver only adds, multiplies, divides and compares them.  [F] stands for
    the floating-point scalars of the framework. *)

Class Scalar (F : Type) := {
  fadd : F → F → F;
  fsub : F → F → F;
  fmul : F → F → F;
  fdiv : F → F → F;
  of_Z : Z → F;                  (* an int literal or count used as a float *)
  lit_0_01 : F;                  (* the literal 0.01 *)
  lit_0_5 : F;                   (* the literal 0.5 *)
  fgt : F → F → bool;            (* x > y *)
  fle : F → F → bool;            (* x <= y *)
  fne : F → F → bool;            (* x != y *)
  isfinite : F → bool;           (* math.isfinite *)
  fle_not_fgt : ∀ x y, fle x y = true → fgt x y = false
}.

(** Integer tensors carry a dtype; in-place arithmetic wraps around in it. *)
Inductive int_dtype := UInt8 | Int8 | Int16 | Int32 | Int64.

Definition dtype_min (d : int_dtype) : Z :=
  match d with
  | UInt8 => 0 | Int8 => -2^7 | Int16 => -2^15 | Int32 => -2^31 | Int64 => -2^63
  end.

Definition dtype_max (d : int_dtype) : Z :=
  match d with
  | UInt8 => 2^8 - 1 | Int8 => 2^7 - 1 | Int16 => 2^15 - 1
  | Int32 => 2^31 - 1 | Int64 => 2^63 - 1
  end.

Definition wrap (d : int_dtype) (z : Z) : Z :=
  dtype_min d + (z - dtype_min d) mod (dtype_max d - dtype_min d + 1).

Record itensor := { dtype : int_dtype; ivals : list Z }.

(** ** Exceptions and outcomes *)

Inductive exn :=
| NameError (name : string)
| UnboundLocalError (name : string)
| KeyError (key : string)
| IndexError
| AttributeError (attr : string)
| TypeError (msg : string)
| RuntimeError (msg : string)
| ZeroDivisionError.

Inductive outcome (A : Type) :=
| Ret (a : A)
| Raise (e : exn)
| Exit (code : Z).
Arguments Ret {A} a.
Arguments Raise {A} e.
Arguments Exit {A} code.

Section Engine.

Context {F : Type} {SF : Scalar F}.

(** ** Data of the external framework *)

(** A box is a row of a [k x 4] tensor. *)
Definition box : Type := F * F * F * F.

(** An image tensor, channels x rows x columns. *)
Definition image_tensor : Type := list (list (list F)).

(** [NestedTensor]: the batch of padded images. *)
Record samples := { tensors : list image_tensor }.

(** One entry of [targets]; [image_id] is a one-element tensor. *)
Record target := {
  boxes : list box;
  labels : itensor;
  image_id : Z;
  orig_size : F * F;              (* (h, w) *)
  size : F * F;
  patches : list image_tensor
}.

(** The model output: per image, a [queries x classes] logits tensor and
    a [queries x 4] box tensor. *)
Record outputs := {
  pred_logits : list (list (list F));
  pred_boxes : list (list box)
}.

(** A loss dictionary, in iteration order. *)
Definition dict : Type := list (string * F).

(** What a postprocessor yields for one image. *)
Record detection := {
  det_scores : list F;
  det_labels : list Z;
  det_boxes : list box
}.

(** A batch, [(samples, targets)].  Where a batch is optional, [None]
    stands for the [(None, None)] of an exhausted prefetcher. *)
Definition batch : Type := samples * list target.

(** A Python number that is either the int the code wrote or a float. *)
Inductive pynum :=
| PyInt (z : Z)
| PyFloat (x : F).

(** ** Trace of calls into the collaborators *)

Inductive event :=
(* torch modules and optimizer *)
| ModelTrain | CriterionTrain | ModelEval | CriterionEval
| Forward (s : option samples)
| SwavForward
| Criterion
| ReduceDict
| ZeroGrad
| Backward (losses : F)
| ClipGradNorm (max_norm : F)
| GetTotalGradNorm (max_norm : F)
| OptimizerStep
(* data_prefetcher and MetricLogger *)
| PrefetcherNew
| PrefetcherNext
| SynchronizeBetweenProcesses
(* math, sys, print *)
| MathIsfinite (v : F)
| PrintLossStop (v : F)              (* "Loss is {}, stopping training" *)
| PrintLossDict (d : dict)           (* print(loss_dict_reduced) *)
| PrintAveraged                      (* "Averaged stats:" *)
| PrintAP (cls : Z) (ap : pynum)     (* "AP for class {}: {}" *)
(* evaluators and postprocessors *)
| NewCocoEvaluator (iou_types : list string)
| NewVocEvaluator (iou_types : list string)
| NewPanopticEvaluator (output_dir : string)
| EvaluatorUpdate (res : gmap Z detection)
| PanopticUpdate
| PostprocessBbox | PostprocessSegm | PostprocessPanoptic
(* files *)
| TorchLoad (path : string)
| TorchSave (path : string)
| Makedirs (path : string)
| AppendFile (path : string) (name : string) (ap : F)
(* sklearn *)
| AveragePrecisionScore (y_true : list bool) (y_score : list F)
(* matplotlib *)
| Gca
| Imshow (img : image_tensor) (norm : bool)
| AddPatch (x y w h : F) (color : string) (linewidth : Z)
| Text (x y : F) (s : string) (facecolor : string)
| SetAspect | SetAxisOff
| Savefig (path : string)
| Clf.

Definition trace : Type := list event.

(** ** The monad

    A computation reads the calls made so far and yields its outcome with
    the calls it made itself. *)

Definition M (A : Type) : Type := trace → outcome A * trace.

Definition ret {A} (a : A) : M A := λ _, (Ret a, []).

Definition bind {A B} (m : M A) (f : A → M B) : M B := λ h,
  match m h with
  | (Ret a, t1) => let '(o, t2) := f a (h ++ t1) in (o, t1 ++ t2)
  | (Raise e, t1) => (Raise e, t1)
  | (Exit c, t1) => (Exit c, t1)
  end.

Definition raise {A} (e : exn) : M A := λ _, (Raise e, []).

(** [sys.exit(code)] *)
Definition sys_exit {A} (code : Z) : M A := λ _, (Exit code, []).

(** A call whose result is not used. *)
Definition emit (e : event) : M unit := λ _, (Ret tt, [e]).

(** A call with a result: the collaborator answers from the history. *)
Definition call {A} (e : event) (answer : trace → A) : M A :=
  λ h, (Ret (answer h), [e]).

(** An attribute read on a collaborator. *)
Definition ask {A} (answer : trace → A) : M A := λ h, (Ret (answer h), []).

#[global] Instance M_ret : MRet M := @ret.
#[global] Instance M_bind : MBind M := λ A B f m, bind m f.

(** [for x in xs: st = body(x, st)] *)
Fixpoint for_each {A S} (xs : list A) (body : A → S → M S) (st : S) : M S :=
  match xs with
  | [] => mret st
  | x :: xs' => st' ← body x st; for_each xs' body st'
  end.

(** [l[0]] on a list or along the first axis of a tensor. *)
Definition item0 {A} (l : list A) : M A :=
  match l with
  | [] => raise IndexError
  | x :: _ => mret x
  end.

(** [l[i]] *)
Definition item {A} (l : list A) (i : nat) : M A :=
  match l !! i with
  | None => raise IndexError
  | Some x => mret x
  end.

(** [torch.stack(rows)] along a new first axis. *)
Definition torch_stack {A} (rows : list A) : M (list A) :=
  match rows with
  | [] => raise (RuntimeError "stack expects a non-empty TensorList")
  | _ => mret rows
  end.

(** ** The collaborators

    Library functions on tensors are plain functions.  The stateful
    collaborators (model, criterion, optimizer, prefetcher, postprocessors)
    answer as a function of the calls made so far, so that a forward pass may
    depend on every optimizer step before it. *)

Class Framework := {
  (* torch, numpy, sklearn, util.box_ops *)
  softmax : list F → list F;                    (* softmax(-1) of one row *)
  sort_descending : list F → list nat;          (* .sort(descending=True)[1] *)
  max_last : list F → F * nat;                  (* .max(-1) of one row *)
  np_sort_descending : list F → list F;         (* a[a.argsort()[::-1]] *)
  linspace : F → F → nat → list F;             (* np.linspace *)
  average_precision_score : list bool → list F → F;
  box_cxcywh_to_xyxy : box → box;
  (* the model, criterion and optimizer *)
  model_forward : trace → option samples → outputs;
  criterion_forward : trace → outputs → option (list target) → dict;
  criterion_weight_dict : trace → dict;
  reduce_dict : trace → dict → dict;
  clip_grad_norm_ : trace → F → F;
  get_total_grad_norm : trace → F → F;
  optimizer_lr : trace → F;                     (* param_groups[0]["lr"] *)
  (* data_prefetcher, MetricLogger *)
  prefetcher_next : trace → option batch;
  global_avg : trace → list F → F;
  (* postprocessors and files *)
  postprocess_bbox : trace → outputs → list (F * F) → list detection;
  postprocess_segm :
    trace → list detection → outputs → list (F * F) → list (F * F) → list detection;
  postprocess_panoptic : trace → outputs → list (F * F) → list (F * F) → nat;
  torch_load : trace → string → list (list F) * list box
}.

Context {FW : Framework}.

(** ** train_one_epoch *)

(** [d[k]] *)
Definition dict_get (d : dict) (k : string) : option F :=
  snd <$> find (λ kv, String.eqb kv.1 k) d.

Definition dict_item (d : dict) (k : string) : M F :=
  match dict_get d k with
  | None => raise (KeyError k)
  | Some v => mret v
  end.

(** [{k: v * weight_dict[k] for k, v in d.items() if k in weight_dict}] *)
Definition scale (weight_dict d : dict) : dict :=
  omap (λ kv, w ← dict_get weight_dict kv.1; Some (kv.1, fmul kv.2 w)) d.

(** [{f'{k}_unscaled': v for k, v in d.items()}] *)
Definition unscale (d : dict) : dict :=
  map (λ kv, (kv.1 +:+ "_unscaled", kv.2)) d.

(** The builtin [sum], which starts from the int 0. *)
Definition py_sum (xs : list F) : pynum :=
  match xs with
  | [] => PyInt 0
  | _ => PyFloat (foldl fadd (of_Z 0) xs)
  end.

(** [x.item()] *)
Definition tensor_item (x : pynum) : M F :=
  match x with
  | PyInt _ => raise (AttributeError "item")
  | PyFloat v => mret v
  end.

(** [losses.backward()] *)
Definition backward (losses : pynum) : M unit :=
  match losses with
  | PyInt _ => raise (AttributeError "backward")
  | PyFloat v => emit (Backward v)
  end.

(** A call [f(k1=v1, **d1, **d2)]: a repeated keyword is a TypeError. *)
Definition py_kwargs (kw : dict) : M dict :=
  if bool_decide (NoDup kw.*1) then mret kw
  else raise (TypeError "got multiple values for keyword argument").

(** Modelled from the spec: [utils.MetricLogger] (util/misc.py is not under
    src/) keeps one meter per tracked name; a meter is the list of values fed
    to it, and its global average is the collaborator's [global_avg]. *)
Abbreviation meters := (gmap string (list F)).

Definition add_meter (name : string) (m : meters) : meters := <[name := []]> m.

Definition meter_update (name : string) (v : F) (m : meters) : meters :=
  <[name := default [] (m !! name) ++ [v]]> m.

(** [metric_logger.update] with keyword arguments [kwargs]. *)
Definition logger_update (kwargs : dict) (m : meters) : meters :=
  foldl (λ m kv, meter_update kv.1 kv.2 m) m kwargs.

(** The local variables that live across iterations. *)
Record train_state := {
  metric_logger : meters;
  fetched : option batch            (* samples, targets *)
}.

(** [swav_model], when given, answers like the other modules. *)
Definition swav : Type := trace → list image_tensor → list image_tensor.

(** Lines 55-58. *)
Definition apply_swav (swav_model : option swav) (targets : option (list target))
  : M (option (list target)) :=
  match swav_model with
  | None => mret targets
  | Some sw =>
      match targets with
      | None => raise (TypeError "'NoneType' object is not iterable")
      | Some ts =>
          ts' ← mapM (λ elem,
                   p ← call SwavForward (λ h, sw h (patches elem));
                   mret {| boxes := boxes elem; labels := labels elem;
                           image_id := image_id elem; orig_size := orig_size elem;
                           size := size elem; patches := p |}) ts;
          mret (Some ts')
      end
  end.

(** Lines 73-76. *)
Definition check_finite (loss_value : F) (loss_dict_reduced : dict) : M unit :=
  finite ← call (MathIsfinite loss_value) (λ _, isfinite loss_value);
  if negb finite then
    emit (PrintLossStop loss_value);;
    emit (PrintLossDict loss_dict_reduced);;
    sys_exit 1
  else mret tt.

(** Lines 80-83. *)
Definition grad_norm_step (max_norm : F) : M F :=
  if fgt max_norm (of_Z 0)
  then call (ClipGradNorm max_norm) (λ h, clip_grad_norm_ h max_norm)
  else call (GetTotalGradNorm max_norm) (λ h, get_total_grad_norm h max_norm).

(** What lines 54-71 leave in the local variables. *)
Record loss_info := {
  losses : pynum;
  loss_dict_reduced : dict;
  loss_dict_reduced_scaled : dict;
  loss_dict_reduced_unscaled : dict;
  loss_value : F
}.

(** Lines 54-71: forward pass and losses. *)
Definition train_forward (swav_model : option swav) (st : train_state)
  : M loss_info :=
  let samples := fst <$> fetched st in
  let targets := snd <$> fetched st in
  outputs ← call (Forward samples) (λ h, model_forward h samples);
  targets ← apply_swav swav_model targets;
  loss_dict ← call Criterion (λ h, criterion_forward h outputs targets);
  weight_dict ← ask criterion_weight_dict;
  let losses := py_sum (scale weight_dict loss_dict).*2 in
  loss_dict_reduced ← call ReduceDict (λ h, reduce_dict h loss_dict);
  let loss_dict_reduced_unscaled := unscale loss_dict_reduced in
  let loss_dict_reduced_scaled := scale weight_dict loss_dict_reduced in
  let losses_reduced_scaled := py_sum loss_dict_reduced_scaled.*2 in
  loss_value ← tensor_item losses_reduced_scaled;
  mret {| losses := losses; loss_dict_reduced := loss_dict_reduced;
          loss_dict_reduced_scaled := loss_dict_reduced_scaled;
          loss_dict_reduced_unscaled := loss_dict_reduced_unscaled;
          loss_value := loss_value |}.

(** Lines 78-91: the update and the bookkeeping. *)
Definition train_step (max_norm : F) (st : train_state) (x : loss_info)
  : M train_state :=
  emit ZeroGrad;;
  backward (losses x);;
  grad_total_norm ← grad_norm_step max_norm;
  emit OptimizerStep;;
  kw ← py_kwargs (("loss", loss_value x)
                    :: loss_dict_reduced_scaled x ++ loss_dict_reduced_unscaled x);
  let m1 := logger_update kw (metric_logger st) in
  class_error ← dict_item (loss_dict_reduced x) "class_error";
  let m2 := meter_update "class_error" class_error m1 in
  lr ← ask optimizer_lr;
  let m3 := meter_update "lr" lr m2 in
  let m4 := meter_update "grad_norm" grad_total_norm m3 in
  next ← call PrefetcherNext prefetcher_next;
  mret {| metric_logger := m4; fetched := next |}.

(** The loop body, lines 54-91. *)
Definition train_batch (swav_model : option swav) (max_norm : F)
    (st : train_state) : M train_state :=
  x ← train_forward swav_model st;
  check_finite (loss_value x) (loss_dict_reduced x);;
  train_step max_norm st x.

(** Lines 40-91: everything up to the end of the loop.
    [log_every(range(len(data_loader)), ...)] yields every index once; its
    progress lines are not recorded. *)
Definition train_loop (swav_model : option swav) (data_loader : list batch)
    (epoch : Z) (max_norm : F) : M train_state :=
  emit ModelTrain;;
  emit CriterionTrain;;
  let logger :=
    add_meter "grad_norm" (add_meter "class_error" (add_meter "lr" ∅)) in
  emit PrefetcherNew;;
  first ← call PrefetcherNext prefetcher_next;
  for_each (seq 0 (length data_loader))
    (λ _ st, train_batch swav_model max_norm st)
    {| metric_logger := logger; fetched := first |}.

(** Lines 92-95. *)
Definition train_one_epoch (swav_model : option swav) (data_loader : list batch)
    (epoch : Z) (max_norm : F) : M (gmap string F) :=
  st ← train_loop swav_model data_loader epoch max_norm;
  emit SynchronizeBetweenProcesses;;
  emit PrintAveraged;;
  ask (λ h, global_avg h <$> metric_logger st).

(** ** plot_image, plot_result *)

(** The class names of both [evaluate] and [viz]. *)
Definition class_name : gmap string string :=
  list_to_map
    [ ("0", "N/A"); ("1", "aeroplane"); ("2", "bicycle"); ("3", "bird");
      ("4", "boat"); ("5", "bottle"); ("6", "bus"); ("7", "car"); ("8", "cat");
      ("9", "chair"); ("10", "cow"); ("11", "diningtable"); ("12", "dog");
      ("13", "horse"); ("14", "motorbike"); ("15", "person");
      ("16", "pottedplant"); ("17", "sheep"); ("18", "sofa"); ("19", "train");
      ("20", "tvmonitor") ].

(** [x[mask]] for a boolean mask along the first axis. *)
Definition mask_select {A} (mask : list bool) (xs : list A) : list A :=
  (filter (λ mx, mx.1 = true) (zip mask xs)).*2.

(** [(image != 0).any(dim=0).any(dim=1)] *)
Definition mask_rows (image : image_tensor) : list bool :=
  map (λ r, existsb (λ ch, existsb (λ x, fne x (of_Z 0)) (ch !!! r)) image)
      (seq 0 (length (hd [] image))).

(** [(image != 0).any(dim=0).any(dim=0)] *)
Definition mask_cols (image : image_tensor) : list bool :=
  map (λ c, existsb (λ ch,
              existsb (λ row, from_option (λ x, fne x (of_Z 0)) false (row !! c)) ch)
            image)
      (seq 0 (length (hd [] (hd [] image)))).

(** Lines 338-341: remove zero-padding. *)
Definition crop (image : image_tensor) : image_tensor :=
  map (λ ch, map (mask_select (mask_cols image)) (mask_select (mask_rows image) ch))
      image.

(** [b * torch.tensor([img_w, img_h, img_w, img_h])] on one row. *)
Definition scale_box (img_w img_h : nat) (b : box) : box :=
  let '(x0, y0, x1, y1) := b in
  (fmul x0 (of_Z (Z.of_nat img_w)), fmul y0 (of_Z (Z.of_nat img_h)),
   fmul x1 (of_Z (Z.of_nat img_w)), fmul y1 (of_Z (Z.of_nat img_h))).

(** Lines 327-332: the pixel arithmetic stays inside the call. *)
Definition plot_image (img : image_tensor) (norm : bool) : M unit :=
  emit (Imshow img norm).

(** [t[i] += 1; t[i] = torch.clamp(t[i], max=20)] on one element. *)
Definition bump (d : int_dtype) (z : Z) : Z := Z.min (wrap d (z + 1)) 20.

(** Lines 356-358 and 361-363: one iteration.  The state is the tensor,
    updated in place, and [label_list]. *)
Definition label_step (class_name : gmap string string) (i : nat)
    (st : itensor * list string) : M (itensor * list string) :=
  let '(t, label_list) := st in
  v ← item (ivals t) i;
  let t := {| dtype := dtype t; ivals := <[i := bump (dtype t) v]> (ivals t) |} in
  v ← item (ivals t) i;
  match class_name !! pretty v with
  | None => raise (KeyError (pretty v))
  | Some name => mret (t, label_list ++ [name])
  end.

(** Lines 355-358 and 360-363: the same loop over either tensor. *)
Definition label_loop (class_name : gmap string string) (t : itensor)
  : M (itensor * list string) :=
  for_each (seq 0 (length (ivals t))) (label_step class_name) (t, []).

(** [zip(prob, boxes.tolist(), label_list)] *)
Definition zip3 {A B C} (xs : list A) (ys : list B) (zs : list C)
  : list (A * B * C) := zip (zip xs ys) zs.

(** Lines 343-344: [img_w, img_h] of the cropped image. *)
Definition image_size (image : image_tensor) : nat * nat :=
  (length (filter (λ m, m = true) (mask_cols image)),
   length (filter (λ m, m = true) (mask_rows image))).

(** Lines 345-346. *)
Definition bboxes_scaled0 (image : image_tensor) (out_bbox : list box) : list box :=
  let '(img_w, img_h) := image_size image in
  map (scale_box img_w img_h) (map box_cxcywh_to_xyxy out_bbox).

(** Line 348 (and 166): [logits.softmax(-1)[0, :, :-1]]. *)
Definition probas (logits0 : list (list F)) : list (list F) :=
  map (λ row, removelast (softmax row)) logits0.

(** Line 349: [probas.max(-1).values > 0.01]. *)
Definition keep (logits0 : list (list F)) : list bool :=
  map (λ row, fgt (max_last row).1 lit_0_01) (probas logits0).

(** Lines 368-374: one rectangle and one text per zipped entry. *)
Definition draw (c : string) (prob_true : bool) (entry : F * box * string) : M unit :=
  let '(p, (xmin, ymin, xmax, ymax), label) := entry in
  emit (AddPatch xmin ymin (fsub xmax xmin) (fsub ymax ymin) c 2);;
  if prob_true then emit (Text xmin ymin label "g")
  else emit (Text xmin ymax label "r").

(** Lines 334-374.  Returns [target_label], which the caller shares. *)
Definition plot_result (image : image_tensor) (boxes : list (list box))
    (logits : list (list (list F))) (c : string) (prob_true : bool)
    (class_name : gmap string string) (target_label : itensor) : M itensor :=
  out_bbox ← item0 boxes;
  logits0 ← item0 logits;
  let pil_img := crop image in
  let kept := mask_select (keep logits0) (probas logits0) in
  let prob := map (λ row, (max_last row).1) kept in
  let pred_cls :=
    {| dtype := Int64; ivals := map (λ row, Z.of_nat (max_last row).2) kept |} in
  '(target_label, label_list) ←
    (if negb prob_true then label_loop class_name target_label
     else '(_, label_list) ← label_loop class_name pred_cls;
          mret (target_label, label_list));
  let boxes := mask_select (keep logits0) (bboxes_scaled0 image out_bbox) in
  plot_image pil_img true;;
  for_each (zip3 prob boxes label_list) (λ entry _, draw c prob_true entry) tt;;
  mret target_label.

(** ** viz *)

(** [os.path.join(a, b)] on POSIX. *)
Definition path_join (a b : string) : string :=
  if String.prefix "/" b then b
  else if bool_decide (a = "") then b
  else if bool_decide (String.get (String.length a - 1) a = Some "/"%char) then a +:+ b
  else a +:+ "/" +:+ b.

(** [needle in hay] on strings. *)
Definition contains (needle hay : string) : bool :=
  bool_decide (is_Some (String.index 0 needle hay)).

(** The selection shared by [evaluate] (line 153-155) and [viz] (396-398):
    the [top_k] queries of the first image by class-1 probability. *)
Definition select_top (top_k : nat) (outputs : outputs)
  : M (list (list box) * list (list (list F))) :=
  logits0 ← item0 (pred_logits outputs);
  class1 ← mapM (λ row, item (softmax row) 1) logits0;
  let indices := take top_k (sort_descending class1) in
  predictied_boxes ←
    (rows ← mapM (λ i, b0 ← item0 (pred_boxes outputs); item b0 i) indices;
     torch_stack rows);
  logits ←
    (rows ← mapM (λ i, l0 ← item0 (pred_logits outputs); item l0 i) indices;
     torch_stack rows);
  mret ([predictied_boxes], [logits]).

Definition set_labels (l : itensor) (t : target) : target :=
  {| boxes := boxes t; labels := l; image_id := image_id t;
     orig_size := orig_size t; size := size t; patches := patches t |}.

(** The loop body, lines 391-420. *)
Definition viz_batch (output_dir : string) (b : batch) : M unit :=
  let '(samples, targets) := b in
  t0 ← item0 targets;
  let top_k := length (boxes t0) in
  outputs ← call (Forward (Some samples)) (λ h, model_forward h (Some samples));
  '(predictied_boxes, logits) ← select_top top_k outputs;
  emit Gca;;
  image ← item0 (tensors samples);
  let boxes_ := predictied_boxes in
  let c := "g" in
  l ← plot_result image boxes_ logits c true class_name (labels t0);
  let t0 := set_labels l t0 in
  let boxes_ := [boxes t0] in
  let logits := [replicate (length (boxes t0)) (replicate 4 (of_Z 0))] in
  let c := "r" in
  l ← plot_result image boxes_ logits c false class_name (labels t0);
  let t0 := set_labels l t0 in
  emit SetAspect;;
  emit SetAxisOff;;
  emit (Savefig (path_join output_dir ("img_" +:+ pretty (image_id t0) +:+ ".jpg")));;
  emit Clf.

Definition viz (data_loader : list batch) (output_dir : string) : M unit :=
  let output_dir := "vis" in
  emit ModelEval;;
  emit CriterionEval;;
  let metric_logger := add_meter "class_error" (∅ : meters) in
  for_each data_loader (λ b _, viz_batch output_dir b) tt.

(** ** evaluate *)

(** Names bound at module level of engine.py: its imports and functions. *)
Definition module_globals : list string :=
  [ "math"; "os"; "sys"; "Iterable"; "random"; "np"; "bbv"; "cv2"; "argparse";
    "Image"; "ImageDraw"; "transforms"; "matplotlib"; "torch"; "utils";
    "CocoEvaluator"; "VocEvaluator"; "PanopticEvaluator"; "data_prefetcher";
    "selective_search"; "box_xyxy_to_cxcywh"; "box_cxcywh_to_xyxy";
    "plot_prediction"; "plt"; "train_one_epoch"; "evaluate"; "plot_results";
    "plot_image"; "plot_result"; "viz"; "get_ss_res" ].

(** The builtin functions and types of Python 3. *)
Definition builtins : list string :=
  [ "abs"; "all"; "any"; "ascii"; "bin"; "bool"; "breakpoint"; "bytearray";
    "bytes"; "callable"; "chr"; "classmethod"; "compile"; "complex"; "delattr";
    "dict"; "dir"; "divmod"; "enumerate"; "eval"; "exec"; "filter"; "float";
    "format"; "frozenset"; "getattr"; "globals"; "hasattr"; "hash"; "help";
    "hex"; "id"; "input"; "int"; "isinstance"; "issubclass"; "iter"; "len";
    "list"; "locals"; "map"; "max"; "memoryview"; "min"; "next"; "object";
    "oct"; "open"; "ord"; "pow"; "print"; "property"; "range"; "repr";
    "reversed"; "round"; "set"; "setattr"; "slice"; "sorted"; "staticmethod";
    "str"; "sum"; "super"; "tuple"; "type"; "vars"; "zip"; "__import__" ].

(** The parameters of [evaluate] and every name its body assigns, imports
    or uses as a loop variable.  Comprehension variables have their own
    scope; the assignments to stats are all commented out. *)
Definition evaluate_locals : list string :=
  [ "model"; "criterion"; "postprocessors"; "data_loader"; "base_ds"; "device";
    "output_dir"; "class_name"; "metric_logger"; "header"; "iou_types";
    "coco_evaluator"; "panoptic_evaluator"; "samples"; "targets";
    "image_filenames"; "name"; "outputs"; "i"; "target"; "image_id"; "loaded";
    "top_k"; "indices"; "predictied_boxes"; "logits"; "ax"; "image"; "boxes";
    "probas"; "values"; "keep"; "gts"; "gt_cls"; "average_precision_score";
    "ind"; "cls_num"; "cls_pred"; "cls_gt_box"; "cls_pred_np"; "cls_gt_box_np";
    "sort_indices"; "true_positives"; "precision"; "recall"; "ap"; "file";
    "aps"; "thresholds"; "threshold"; "loss_dict"; "weight_dict";
    "loss_dict_reduced"; "loss_dict_reduced_scaled";
    "loss_dict_reduced_unscaled"; "orig_target_sizes"; "results";
    "pred_logits"; "pred_boxes"; "img_h"; "img_w"; "pred_boxes_";
    "target_sizes"; "res"; "res_pano"; "file_name" ].

Inductive binding := Local | Global | Builtin | Unbound.

(** How the compiler and the interpreter resolve a name read in a function. *)
Definition resolve (function_locals : list string) (x : string) : binding :=
  if bool_decide (x ∈ function_locals) then Local
  else if bool_decide (x ∈ module_globals) then Global
  else if bool_decide (x ∈ builtins) then Builtin
  else Unbound.

(** Reading the name [x] where the locals in [bound] have a value. *)
Definition load_name (function_locals bound : list string) (x : string) : M unit :=
  match resolve function_locals x with
  | Local =>
      if bool_decide (x ∈ bound) then mret tt else raise (UnboundLocalError x)
  | Global | Builtin => mret tt
  | Unbound => raise (NameError x)
  end.

Definition image_filenames : list string :=
  [ "img_2021000247.jpg"; "img_2021000706.jpg"; "img_2021001070.jpg";
    "img_2021003055.jpg"; "img_2021007554.jpg"; "img_2021008746.jpg" ].

(** [true_positives.cumsum()] *)
Fixpoint cumsum_from (acc : Z) (bs : list bool) : list Z :=
  match bs with
  | [] => []
  | b :: bs' => let acc' := acc + (if b then 1 else 0) in acc' :: cumsum_from acc' bs'
  end.

Definition cumsum (bs : list bool) : list Z := cumsum_from 0 bs.

(** [true_positives.cumsum() / (np.arange(len(cls_pred_np)) + 1)] *)
Definition precision_of (true_positives : list bool) : list F :=
  zip_with (λ c i, fdiv (of_Z c) (of_Z (Z.of_nat i + 1)))
           (cumsum true_positives) (seq 0 (length true_positives)).

(** [true_positives.cumsum() / len(cls_gt_box_np)] *)
Definition recall_of (true_positives : list bool) (n_gt : nat) : list F :=
  map (λ c, fdiv (of_Z c) (of_Z (Z.of_nat n_gt))) (cumsum true_positives).

(** Lines 194-198 and 212-216: one average precision at one threshold. *)
Definition ap_at (threshold : F) (cls_pred_np : list F) (n_gt : nat) : M F :=
  let true_positives := map (λ s, fgt s threshold) cls_pred_np in
  let precision := precision_of true_positives in
  let recall := recall_of true_positives n_gt in
  call (AveragePrecisionScore true_positives precision)
       (λ _, average_precision_score true_positives precision).

(** [sum(aps) / len(aps)] *)
Definition py_mean (aps : list F) : M pynum :=
  match aps with
  | [] => raise ZeroDivisionError
  | _ => mret (PyFloat (fdiv (foldl fadd (of_Z 0) aps) (of_Z (Z.of_nat (length aps)))))
  end.

(** Lines 181-220 for one class. *)
Definition class_ap (name : string) (cls_pred : list F) (n_gt : nat) : M pynum :=
  if bool_decide (length cls_pred ≠ 0%nat) then
    let cls_pred_np := np_sort_descending cls_pred in
    (* PASCAL VOC AP *)
    ap ← ap_at lit_0_5 cls_pred_np n_gt;
    (if bool_decide (name ∈ image_filenames)
     then emit (AppendFile "./ap.txt" name ap) else mret tt);;
    (* MS COCO AP *)
    let thresholds := linspace (of_Z 0) (of_Z 1) 101 in
    aps ← mapM (λ threshold, ap_at threshold cls_pred_np n_gt) thresholds;
    py_mean aps
  else mret (PyInt 0).

(** Lines 166-170 and 178: the scores of the kept predictions whose
    class is [cls_num]. *)
Definition class_scores (logits0 : list (list F)) (cls_num : Z) : list F :=
  let values := map (λ row, (max_last row).1) (probas logits0) in
  let indices := map (λ row, Z.of_nat (max_last row).2) (probas logits0) in
  let values := mask_select (keep logits0) values in
  let indices := mask_select (keep logits0) indices in
  mask_select (map (λ i, Z.eqb i cls_num) indices) values.

(** Lines 175-221 for one index of the loop.  In line 179 the mask
    [gt_cls == cls_num] indexes the box axis of [gts], which must have the
    length of [gt_cls]. *)
Definition measure_class (name : string) (logits0 : list (list F)) (t0 : target)
    (ind : nat) : M unit :=
  let gts := boxes t0 in
  let gt_cls := ivals (labels t0) in
  cls_num ← item gt_cls ind;
  let cls_pred := class_scores logits0 cls_num in
  cls_gt_box ←
    (if bool_decide (length gt_cls = length gts)
     then mret (mask_select (map (λ c, Z.eqb c cls_num) gt_cls) gts)
     else raise IndexError);
  ap ← class_ap name cls_pred (length cls_gt_box);
  emit (PrintAP cls_num ap).

(** Lines 165-221: "Measure AP". *)
Definition measure_ap (name : string) (logits : list (list (list F)))
    (t0 : target) : M unit :=
  logits0 ← item0 logits;
  for_each (seq 0 (length (remove_dups (ivals (labels t0)))))
    (λ ind _, measure_class name logits0 t0 ind) tt.

(** The local variables that live across iterations: the logger, [model]
    once it is rebound to a lambda (line 147), and [target_sizes]. *)
Record eval_state := {
  eval_logger : meters;
  model_lambda : option outputs;
  target_sizes : option (list (F * F))
}.

Definition pynum_value (x : pynum) : F :=
  match x with
  | PyInt z => of_Z z
  | PyFloat v => v
  end.

(** Lines 140-147. *)
Definition load_detections (output_dir : string) (targets : list target)
    (st : eval_state) : M (option outputs) :=
  if contains "loaddet" output_dir then
    loaded ← mapM (λ target,
                call (TorchLoad (pretty (image_id target) +:+ ".pt"))
                     (λ h, torch_load h (pretty (image_id target) +:+ ".pt")))
              targets;
    mret (Some {| pred_logits := loaded.*1; pred_boxes := loaded.*2 |})
  else mret (model_lambda st).

(** Lines 257-266. *)
Definition save_detections (output_dir : string) (targets : list target)
    (outputs : outputs) : M unit :=
  if contains "savedet" output_dir then
    emit (Makedirs output_dir);;
    for_each (imap (λ i t, (i, t)) targets)
      (λ '(i, target) _,
         pred_logits_i ← item (pred_logits outputs) i;
         pred_boxes_i ← item (pred_boxes outputs) i;
         emit (TorchSave (path_join output_dir (pretty (image_id target) +:+ ".pt"))))
      tt
  else mret tt.

(** Lines 234-283: the figure, the losses and the evaluator updates. *)
Definition evaluate_finish (postprocessors : list string) (output_dir : string)
    (panoptic_evaluator : bool) (targets : list target) (t0 : target)
    (model : option outputs) (outputs : outputs) (st : eval_state)
  : M eval_state :=
  emit SetAspect;;
  emit SetAxisOff;;
  emit (Savefig (path_join output_dir ("img_" +:+ pretty (image_id t0) +:+ ".jpg")));;
  emit Clf;;
  loss_dict ← call Criterion (λ h, criterion_forward h outputs (Some targets));
  weight_dict ← ask criterion_weight_dict;
  loss_dict_reduced ← call ReduceDict (λ h, reduce_dict h loss_dict);
  let loss_dict_reduced_scaled := scale weight_dict loss_dict_reduced in
  let loss_dict_reduced_unscaled := unscale loss_dict_reduced in
  kw ← py_kwargs (("loss", pynum_value (py_sum loss_dict_reduced_scaled.*2))
                    :: loss_dict_reduced_scaled ++ loss_dict_reduced_unscaled);
  let m1 := logger_update kw (eval_logger st) in
  class_error ← dict_item loss_dict_reduced "class_error";
  let m2 := meter_update "class_error" class_error m1 in
  let orig_target_sizes := map orig_size targets in
  results ← (if bool_decide ("bbox" ∈ postprocessors)
             then call PostprocessBbox (λ h, postprocess_bbox h outputs orig_target_sizes)
             else raise (KeyError "bbox"));
  save_detections output_dir targets outputs;;
  '(results, sizes) ←
    (if bool_decide ("segm" ∈ postprocessors) then
       let sizes := map size targets in
       r ← call PostprocessSegm
             (λ h, postprocess_segm h results outputs orig_target_sizes sizes);
       mret (r, Some sizes)
     else mret (results, target_sizes st));
  let res := foldl (λ (m : gmap Z detection) tr, <[image_id tr.1 := tr.2]> m)
                   ∅ (zip targets results) in
  emit (EvaluatorUpdate res);;
  (if panoptic_evaluator then
     match sizes with
     | None => raise (UnboundLocalError "target_sizes")
     | Some ts =>
         n ← call PostprocessPanoptic
               (λ h, postprocess_panoptic h outputs ts orig_target_sizes);
         (if bool_decide (length targets ≤ n)%nat then mret tt else raise IndexError);;
         emit PanopticUpdate
     end
   else mret tt);;
  mret {| eval_logger := m2; model_lambda := model; target_sizes := sizes |}.

(** The loop body, lines 126-283. *)
Definition evaluate_batch (postprocessors : list string) (output_dir : string)
    (panoptic_evaluator : bool) (b : batch) (st : eval_state) : M eval_state :=
  let '(samples, targets) := b in
  t0 ← item0 targets;
  let name := "img_" +:+ pretty (image_id t0) +:+ ".jpg" in
  model ← load_detections output_dir targets st;
  outputs ← match model with
            | Some o => mret o
            | None => call (Forward (Some samples)) (λ h, model_forward h (Some samples))
            end;
  let top_k := 10%nat in
  '(predictied_boxes, logits) ← select_top top_k outputs;
  emit Gca;;
  image ← item0 (tensors samples);
  measure_ap name logits t0;;
  evaluate_finish postprocessors output_dir panoptic_evaluator targets t0 model
                  outputs st.

(** Lines 100-283: everything before the return statement.  [base_ds] is
    represented by the name of its class, [type(base_ds).__name__], and
    [postprocessors] by its keys. *)
Definition evaluate_loop (postprocessors : list string) (data_loader : list batch)
    (base_ds : string) (output_dir : string) : M eval_state :=
  let output_dir := "vis" in
  emit ModelEval;;
  emit CriterionEval;;
  let logger := add_meter "class_error" (∅ : meters) in
  let iou_types := filter (λ k, k ∈ postprocessors) ["segm"; "bbox"] in
  emit (if contains "COCO" base_ds
        then NewCocoEvaluator iou_types else NewVocEvaluator iou_types);;
  panoptic_evaluator ←
    (if bool_decide ("panoptic" ∈ postprocessors)
     then emit (NewPanopticEvaluator (path_join output_dir "panoptic_eval"));;
          mret true
     else mret false);
  for_each data_loader
    (evaluate_batch postprocessors output_dir panoptic_evaluator)
    {| eval_logger := logger; model_lambda := None; target_sizes := None |}.

(** Line 310: [return stats, coco_evaluator]. *)
Definition evaluate (postprocessors : list string) (data_loader : list batch)
    (base_ds : string) (output_dir : string) : M unit :=
  evaluate_loop postprocessors data_loader base_ds output_dir;;
  load_name evaluate_locals evaluate_locals "stats";;
  mret tt.

(** ** What the statements observe in a trace *)

(** The calls that change gradients or parameters. *)
Definition is_update (e : event) : bool :=
  match e with
  | ZeroGrad | Backward _ | ClipGradNorm _ | GetTotalGradNorm _ | OptimizerStep => true
  | _ => false
  end.

(** The two prints that precede [sys.exit(1)]. *)
Definition is_stop (e : event) : bool :=
  match e with
  | PrintLossStop _ | PrintLossDict _ => true
  | _ => false
  end.

(** No event of the trace satisfies [P]. *)
Definition quiet_trace (P : event → bool) (t : trace) : Prop :=
  Forall (λ e, P e = false) t.

(** A computation that never emits an event satisfying [P]. *)
Definition quiet (P : event → bool) {A} (m : M A) : Prop :=
  ∀ h, quiet_trace P (m h).2.

(** A computation that never ends the process. *)
Definition no_exit {A} (m : M A) : Prop := ∀ h c, (m h).1 ≠ Exit c.

(** The per-batch operations of the training loop. *)
Inductive op :=
| OpForward | OpCriterion | OpFiniteCheck | OpZeroGrad | OpBackward
| OpGradNorm | OpOptimizerStep.

Definition op_of (e : event) : option op :=
  match e with
  | Forward _ => Some OpForward
  | Criterion => Some OpCriterion
  | MathIsfinite _ => Some OpFiniteCheck
  | ZeroGrad => Some OpZeroGrad
  | Backward _ => Some OpBackward
  | ClipGradNorm _ | GetTotalGradNorm _ => Some OpGradNorm
  | OptimizerStep => Some OpOptimizerStep
  | _ => None
  end.

Definition batch_order : list op :=
  [ OpForward; OpCriterion; OpFiniteCheck; OpZeroGrad; OpBackward; OpGradNorm;
    OpOptimizerStep ].

(** How the gradient norm was handled: clipped to [max_norm], or only
    computed. *)
Inductive grad_norm_handling :=
| Clipped (max_norm : F)
| NormOnly (max_norm : F).

Definition handling_of (e : event) : option grad_norm_handling :=
  match e with
  | ClipGradNorm m => Some (Clipped m)
  | GetTotalGradNorm m => Some (NormOnly m)
  | _ => None
  end.

(** Along every run of [m] the observations [f] of its events form a
    prefix of [l], and the whole of [l] when [m] returns. *)
Definition in_order {A B} (f : event → option B) (m : M A) (l : list B) : Prop :=
  ∀ h, omap f (m h).2 `prefix_of` l ∧ ∀ a, (m h).1 = Ret a → omap f (m h).2 = l.

(** [m], run after [h], returns a value and a trace that satisfy [Q]. *)
Definition returns {A} (m : M A) (h : trace) (Q : A → trace → Prop) : Prop :=
  ∃ a t, m h = (Ret a, t) ∧ Q a t.



(** What an iteration needs to reach its end: lines 54-71 succeed (so with
    a swav model the fetched targets are there, and some reduced loss is
    weighted) with a finite loss value; the weighted sum of line 61 is a
    tensor; the keywords of line 86 are distinct; and the reduced dictionary
    has a class_error entry. *)
Definition batch_ok (swav_model : option swav) (st : train_state) (h : trace)
  : bool :=
  match train_forward swav_model st h with
  | (Ret x, _) =>
      isfinite (loss_value x)
      && match losses x with PyFloat _ => true | PyInt _ => false end
      && bool_decide (NoDup ("loss" :: (loss_dict_reduced_scaled x).*1
                                     ++ (loss_dict_reduced_unscaled x).*1))
      && bool_decide (is_Some (dict_get (loss_dict_reduced x) "class_error"))
  | _ => false
  end.

(** [batch_ok] at each of the next [n] iterations of the run that is in
    state [st] after the calls [h]. *)
Fixpoint batches_ok (swav_model : option swav) (max_norm : F) (n : nat)
    (st : train_state) (h : trace) : bool :=
  match n with
  | O => true
  | S n' =>
      batch_ok swav_model st h
      && match train_batch swav_model max_norm st h with
         | (Ret st', t) => batches_ok swav_model max_norm n' st' (h ++ t)
         | _ => true
         end
  end.

(** The state and the calls with which the loop of an epoch begins. *)
Definition loop_start (h : trace) : train_state * trace :=
  ({| metric_logger :=
        add_meter "grad_norm" (add_meter "class_error" (add_meter "lr" ∅));
      fetched := prefetcher_next (h ++ [ModelTrain; CriterionTrain; PrefetcherNew]) |},
   h ++ [ModelTrain; CriterionTrain; PrefetcherNew; PrefetcherNext]).

(** [batch_ok] at every iteration of an epoch over [data_loader]. *)
Definition epoch_ok (swav_model : option swav) (max_norm : F)
    (data_loader : list batch) (h : trace) : bool :=
  batches_ok swav_model max_norm (length data_loader)
             (loop_start h).1 (loop_start h).2.

(** A meter of the logger with this name exists. *)
Definition tracked (m : meters) (name : string) : Prop := is_Some (m !! name).

(** The meters every iteration of the training loop feeds. *)
Definition meter_names : list string := ["loss"; "class_error"; "lr"; "grad_norm"].

(** A class index that is nonnegative and below the largest value of
    its tensor's dtype. *)
Definition in_dtype_range (d : int_dtype) (l : Z) : Prop := 0 ≤ l < dtype_max d.

(** What the draw loop of [plot_result] adds to the axes. *)
Definition drawn (c : string) (prob_true : bool) (entries : list (F * box * string))
  : trace :=
  mjoin ((λ entry : F * box * string,
            let '(p, (xmin, ymin, xmax, ymax), label) := entry in
            [ AddPatch xmin ymin (fsub xmax xmin) (fsub ymax ymin) c 2;
              if prob_true then Text xmin ymin label "g"
              else Text xmin ymax label "r" ]) <$> entries).

(** The scores, classes and boxes that [plot_result] keeps (lines 349-364). *)
Definition kept_prob (logits0 : list (list F)) : list F :=
  map (λ row, (max_last row).1) (mask_select (keep logits0) (probas logits0)).

Definition kept_cls (logits0 : list (list F)) : itensor :=
  {| dtype := Int64;
     ivals := map (λ row, Z.of_nat (max_last row).2)
                  (mask_select (keep logits0) (probas logits0)) |}.

Definition kept_boxes (image : image_tensor) (out_bbox : list box)
    (logits0 : list (list F)) : list box :=
  mask_select (keep logits0) (bboxes_scaled0 image out_bbox).

(** The class names found for the elements of a label tensor. *)
Definition names_of (class_name : gmap string string) (t : itensor)
    (names : list string) : Prop :=
  Forall2 (λ l name, class_name !! pretty (bump (dtype t) l) = Some name)
          (ivals t) names.


Definition savefig_of (e : event) : option string :=
  match e with
  | Savefig path => Some path
  | _ => None
  end.


(** [softmax(-1)[..., 1]]: the class-1 probability of every query. *)
Definition class1 (logits0 : list (list F)) : list F :=
  omap (λ row, softmax row !! 1%nat) logits0.

(** The queries selected by lines 153 and 396. *)
Definition top_indices (top_k : nat) (logits0 : list (list F)) : list nat :=
  take top_k (sort_descending (class1 logits0)).

(** The figure [viz] saves for a batch. *)
Definition figure_of (b : batch) : list string :=
  match b.2 with
  | [] => []
  | t0 :: _ => ["vis/img_" +:+ pretty (image_id t0) +:+ ".jpg"]
  end.

(** Reading or writing saved detections (lines 140-147 and 257-266). *)
Definition is_detection_file (e : event) : bool :=
  match e with
  | TorchLoad _ | TorchSave _ | Makedirs _ => true
  | _ => false
  end.

(** The calls [evaluate] makes on the COCO or VOC evaluator. *)
Inductive evaluator_call :=
| Constructed (coco : bool) (iou_types : list string)
| Updated.

Definition evaluator_call_of (e : event) : option evaluator_call :=
  match e with
  | NewCocoEvaluator iou_types => Some (Constructed true iou_types)
  | NewVocEvaluator iou_types => Some (Constructed false iou_types)
  | EvaluatorUpdate _ => Some Updated
  | _ => None
  end.

(** An average precision [evaluate] prints itself (line 221). *)
Definition printed_ap_of (e : event) : option unit :=
  match e with
  | PrintAP _ _ => Some tt
  | _ => None
  end.

(** Metric computation outside the evaluator: a call of sklearn's
    [average_precision_score] or a printed average precision. *)
Definition is_own_metric (e : event) : bool :=
  match e with
  | AveragePrecisionScore _ _ | PrintAP _ _ => true
  | _ => false
  end.


(** The call of sklearn's [average_precision_score] at one threshold on
    the sorted scores of a class, and its value: a prediction counts as a
    true positive when its score exceeds the threshold. *)
Definition ap_call (threshold : F) (scores : list F) : event :=
  AveragePrecisionScore (map (λ s, fgt s threshold) scores)
                        (precision_of (map (λ s, fgt s threshold) scores)).

Definition ap_value (threshold : F) (scores : list F) : F :=
  average_precision_score (map (λ s, fgt s threshold) scores)
                          (precision_of (map (λ s, fgt s threshold) scores)).

(** The PASCAL-VOC-style value: threshold 0.5. *)
Definition voc_ap (scores : list F) : F :=
  ap_value lit_0_5 (np_sort_descending scores).

(** The 101 thresholds of the MS-COCO-style value, and the value: the mean
    over them. *)
Definition coco_thresholds : list F := linspace (of_Z 0) (of_Z 1) 101.

Definition coco_ap (scores : list F) : F :=
  fdiv (foldl fadd (of_Z 0)
          (map (λ threshold, ap_value threshold (np_sort_descending scores))
               coco_thresholds))
       (of_Z 101).

(** What [evaluate] does for one class with the given scores. *)
Definition class_report (name : string) (cls : Z) (scores : list F) : list event :=
  match scores with
  | [] => [PrintAP cls (PyInt 0)]
  | _ =>
      [ap_call lit_0_5 (np_sort_descending scores)]
      ++ (if bool_decide (name ∈ image_filenames)
          then [AppendFile "./ap.txt" name (voc_ap scores)] else [])
      ++ map (λ threshold, ap_call threshold (np_sort_descending scores))
             coco_thresholds
      ++ [PrintAP cls (PyFloat (coco_ap scores))]
  end.

(** The number of scores passed to each [average_precision_score] call. *)
Definition ap_size_of (e : event) : option nat :=
  match e with
  | AveragePrecisionScore y_true _ => Some (length y_true)
  | _ => None
  end.

(** ** plot_results *)

(** Lines 313-319.  [plot_prob] is only read by commented-out code. *)
Definition plot_results {P} (pil_img : image_tensor) (prob : option (list P))
    (boxes : option (list box)) (c : string) (plot_prob norm : bool) : M unit :=
  plot_image pil_img norm;;
  match prob, boxes with
  | Some prob, Some boxes =>
      for_each (zip prob boxes)
        (λ '(p, (xmin, ymin, xmax, ymax)) _,
           emit (AddPatch xmin ymin (fsub xmax xmin) (fsub ymax ymin) c 1)) tt
  | _, _ => mret tt
  end.

(** ** Further observations *)

(** The loss value handed to [math.isfinite]. *)
Definition finite_check_of (e : event) : option F :=
  match e with
  | MathIsfinite v => Some v
  | _ => None
  end.

(** Putting the modules in training mode, or changing gradients or
    parameters. *)
Definition is_training (e : event) : bool :=
  match e with
  | ModelTrain | CriterionTrain => true
  | _ => is_update e
  end.

(** Drawing on the axes. *)
Definition is_drawing (e : event) : bool :=
  match e with
  | Imshow _ _ | AddPatch _ _ _ _ _ _ | Text _ _ _ _ => true
  | _ => false
  end.

Definition is_text (e : event) : bool :=
  match e with
  | Text _ _ _ _ => true
  | _ => false
  end.

(** Two targets that differ at most in their patches. *)
Definition same_but_patches (a b : target) : Prop :=
  boxes b = boxes a ∧ labels b = labels a ∧ image_id b = image_id a ∧
  orig_size b = orig_size a ∧ size b = size a.

(** A write to a file other than ./ap.txt, or for an image that is not
    one of [image_filenames]. *)
Definition is_unlisted_write (e : event) : bool :=
  match e with
  | AppendFile path name _ =>
      negb (bool_decide (path = "./ap.txt" ∧ name ∈ image_filenames))
  | _ => false
  end.

Definition is_evaluator_update (e : event) : bool :=
  match e with
  | EvaluatorUpdate _ => true
  | _ => false
  end.

(** A call of a postprocessor other than the one for boxes, or of the
    panoptic evaluator's update. *)
Definition is_after_bbox (e : event) : bool :=
  match e with
  | PostprocessBbox | PostprocessSegm | PostprocessPanoptic | EvaluatorUpdate _
  | PanopticUpdate => true
  | _ => false
  end.

Definition is_panoptic_use (e : event) : bool :=
  match e with
  | PostprocessPanoptic | PanopticUpdate => true
  | _ => false
  end.

(** An evaluator update with a result for an image that is not among
    [targets]. *)
Definition is_foreign_update (targets : list target) (e : event) : bool :=
  match e with
  | EvaluatorUpdate res =>
      negb (bool_decide (dom res ⊆ list_to_set (image_id <$> targets)))
  | _ => false
  end.

(** In every run of [m], once an event satisfying [P] has happened the
    run ends by raising [e]. *)
Definition raises_after (P : event → bool) (e : exn) {A} (m : M A) : Prop :=
  ∀ h, quiet_trace P (m h).2 ∨ (m h).1 = Raise e.

(** Computing a loss or a metric: the criterion, the postprocessors, the
    evaluators and the average precisions. *)
Definition is_scoring (e : event) : bool :=
  match e with
  | Criterion | ReduceDict
  | NewCocoEvaluator _ | NewVocEvaluator _ | NewPanopticEvaluator _
  | EvaluatorUpdate _ | PanopticUpdate
  | PostprocessBbox | PostprocessSegm | PostprocessPanoptic
  | AveragePrecisionScore _ _ | PrintAP _ _ | AppendFile _ _ _ => true
  | _ => false
  end.

(** The rectangle [plot_results] adds for a box: the outline of the box in
    colour [c], of line width 1. *)
Definition outline (c : string) (b : box) : event :=
  let '(xmin, ymin, xmax, ymax) := b in
  AddPatch xmin ymin (fsub xmax xmin) (fsub ymax ymin) c 1.

(** An image tensor of shape channels x [rows] x [cols]. *)
Definition has_shape (rows cols : nat) (image : image_tensor) : Prop :=
  Forall (λ ch, length ch = rows ∧ Forall (λ row, length row = cols) ch) image.

(** The label of a text added to the axes. *)
Definition text_of (e : event) : option string :=
  match e with
  | Text _ _ s _ => Some s
  | _ => None
  end.

(** The stages of an evaluation batch after the average precisions. *)
Inductive eval_stage :=
| StFigure | StLoss | StBoxes | StMasks | StUpdate | StPanoptic | StPanopticUpdate.

Definition stage_of (e : event) : option eval_stage :=
  match e with
  | Savefig _ => Some StFigure
  | Criterion => Some StLoss
  | PostprocessBbox => Some StBoxes
  | PostprocessSegm => Some StMasks
  | EvaluatorUpdate _ => Some StUpdate
  | PostprocessPanoptic => Some StPanoptic
  | PanopticUpdate => Some StPanopticUpdate
  | _ => None
  end.

(** The stages of a batch under the postprocessors [postprocessors]. *)
Definition stages (postprocessors : list string) : list eval_stage :=
  [StFigure; StLoss; StBoxes]
  ++ (if bool_decide ("segm" ∈ postprocessors) then [StMasks] else [])
  ++ [StUpdate]
  ++ (if bool_decide ("panoptic" ∈ postprocessors)
      then [StPanoptic; StPanopticUpdate] else []).

End Engine.

Arguments Framework : clear implicits.
Arguments event : clear implicits.
Arguments trace : clear implicits.
Arguments M : clear implicits.

(** ** A concrete framework

    Rationals with a not-a-number stand for the scalars; the collaborators
    answer from fixed data.  It serves to run the loops on small inputs. *)

Module Run.

Inductive num := Fin (q : Q) | NaN.

Definition lift2 (f : Q → Q → Q) (x y : num) : num :=
  match x, y with
  | Fin a, Fin b => Fin (Qred (f a b))
  | _, _ => NaN
  end.

Definition num_div (x y : num) : num :=
  match x, y with
  | Fin a, Fin b => if Qeq_bool b 0 then NaN else Fin (Qred (a / b))
  | _, _ => NaN
  end.

Definition num_gt (x y : num) : bool :=
  match x, y with
  | Fin a, Fin b => negb (Qle_bool a b)
  | _, _ => false
  end.

Definition num_le (x y : num) : bool :=
  match x, y with
  | Fin a, Fin b => Qle_bool a b
  | _, _ => false
  end.

Definition num_ne (x y : num) : bool :=
  match x, y with
  | Fin a, Fin b => negb (Qeq_bool a b)
  | _, _ => true
  end.

Definition num_isfinite (x : num) : bool :=
  match x with
  | Fin _ => true
  | NaN => false
  end.

Lemma num_le_not_gt x y : num_le x y = true → num_gt x y = false.
Proof. destruct x, y; simpl; try done. by intros ->. Qed.

#[export] Instance num_scalar : Scalar num := {|
  fadd := lift2 Qplus;
  fsub := lift2 Qminus;
  fmul := lift2 Qmult;
  fdiv := num_div;
  of_Z z := Fin (inject_Z z);
  lit_0_01 := Fin (1 # 100);
  lit_0_5 := Fin (1 # 2);
  fgt := num_gt;
  fle := num_le;
  fne := num_ne;
  isfinite := num_isfinite;
  fle_not_fgt := num_le_not_gt
|}.

(** Insert [x] into a list that is descending for [gt], after its equals. *)
Fixpoint insert_desc {A} (gt : A → A → bool) (x : A) (l : list A) : list A :=
  match l with
  | [] => [x]
  | y :: l' => if gt x y then x :: l else y :: insert_desc gt x l'
  end.

Definition sort_desc {A} (gt : A → A → bool) (l : list A) : list A :=
  foldl (λ acc x, insert_desc gt x acc) [] l.

(** The first maximum of a row and its index. *)
Definition first_max (row : list num) : num * nat :=
  foldl (λ best ix, if num_gt ix.2 best.1 then (ix.2, ix.1) else best)
        (hd NaN row, 0%nat) (imap (λ i x, (i, x)) row).

Definition is_prefetch (e : event num) : bool :=
  match e with
  | PrefetcherNext => true
  | _ => false
  end.

Definition mean (vs : list num) : num :=
  num_div (foldl (lift2 Qplus) (Fin 0) vs) (Fin (inject_Z (Z.of_nat (length vs)))).

(** The model always answers [out], the criterion [loss] under the weights
    [weights], and the prefetcher hands out [batches] one after the other.
    [softmax] is the uniform distribution, which is what torch computes on a
    row whose entries are all equal; the runs below only use such rows, and
    none of their statements depends on the value of
    [average_precision_score]. *)
Definition framework (out : outputs) (loss weights : dict (F := num))
    (batches : list batch) : Framework num := {|
  softmax row :=
    replicate (length row) (num_div (Fin 1) (Fin (inject_Z (Z.of_nat (length row)))));
  sort_descending v :=
    (sort_desc (λ a b, num_gt a.2 b.2) (imap (λ i x, (i, x)) v)).*1;
  max_last := first_max;
  np_sort_descending := sort_desc num_gt;
  linspace a b n :=
    map (λ i, lift2 Qplus a
                (num_div (lift2 Qmult (Fin (inject_Z (Z.of_nat i))) (lift2 Qminus b a))
                         (Fin (inject_Z (Z.of_nat n - 1)))))
        (seq 0 n);
  average_precision_score _ _ := Fin 0;
  box_cxcywh_to_xyxy b :=
    let '(cx, cy, w, h) := b in
    (lift2 Qminus cx (num_div w (Fin 2)), lift2 Qminus cy (num_div h (Fin 2)),
     lift2 Qplus cx (num_div w (Fin 2)), lift2 Qplus cy (num_div h (Fin 2)));
  model_forward _ _ := out;
  criterion_forward _ _ _ := loss;
  criterion_weight_dict _ := weights;
  reduce_dict _ d := d;
  clip_grad_norm_ _ _ := Fin 1;
  get_total_grad_norm _ _ := Fin 1;
  optimizer_lr _ := Fin (1 # 10000);
  prefetcher_next h := batches !! length (filter (λ e, is_prefetch e = true) h);
  global_avg _ := mean;
  postprocess_bbox _ _ sizes :=
    map (λ _, {| det_scores := []; det_labels := []; det_boxes := [] |}) sizes;
  postprocess_segm _ results _ _ _ := results;
  postprocess_panoptic _ _ sizes _ := length sizes;
  torch_load _ _ := ([], [])
|}.


(** *** Inputs of the concrete runs *)

(** A row of [n] zero logits. *)
Definition zeros (n : nat) : list num := replicate n (Fin 0).

Definition a_box (cx : Z) : box (F := num) :=
  (Fin (inject_Z cx), Fin (1 # 2), Fin (1 # 4), Fin (1 # 4)).

(** A one-channel 2 x 2 image whose only nonzero pixel is the first. *)
Definition an_image : image_tensor (F := num) := [[[Fin 1; Fin 0]; [Fin 0; Fin 0]]].

Definition a_target (bxs : list box) (lbls : list Z) (id : Z) : target (F := num) :=
  {| boxes := bxs; labels := {| dtype := Int64; ivals := lbls |}; image_id := id;
     orig_size := (Fin 2, Fin 2); size := (Fin 2, Fin 2); patches := [] |}.

Definition a_batch (t : target) : batch := ({| tensors := [an_image] |}, [t]).

(** Three queries over two classes. *)
Definition out3 : outputs (F := num) :=
  {| pred_logits := [replicate 3 (zeros 2)];
     pred_boxes := [[a_box 1; a_box 2; a_box 3]] |}.

(** Eleven queries over two classes. *)
Definition out11 : outputs (F := num) :=
  {| pred_logits := [replicate 11 (zeros 2)];
     pred_boxes := [a_box <$> (Z.of_nat <$> seq 0 11)] |}.


Definition two_boxes : target := a_target [a_box 7; a_box 8] [5; 19] 42.
Definition one_box : target := a_target [a_box 7] [0] 7.

Definition good_loss : dict (F := num) := [("loss_ce", Fin 2); ("class_error", Fin 50)].
Definition nan_loss : dict (F := num) := [("loss_ce", NaN); ("class_error", Fin 50)].
Definition weights : dict (F := num) := [("loss_ce", Fin 3)].

Definition fw_good : Framework num :=
  framework out3 good_loss weights [a_batch two_boxes; a_batch two_boxes].
Definition fw_nan : Framework num :=
  framework out3 nan_loss weights [a_batch two_boxes; a_batch two_boxes].
Definition fw11 : Framework num :=
  framework out11 good_loss weights [a_batch one_box].

Definition first_state : train_state (F := num) :=
  {| metric_logger := ∅; fetched := Some (a_batch two_boxes) |}.

Definition eval_start : eval_state (F := num) :=
  {| eval_logger := ∅; model_lambda := None; target_sizes := None |}.

(** What lines 54-71 leave behind on the first batch under [fw_nan]. *)
Definition nan_info : loss_info (F := num) :=
  {| losses := PyFloat NaN;
     loss_dict_reduced := nan_loss;
     loss_dict_reduced_scaled := [("loss_ce", NaN)];
     loss_dict_reduced_unscaled :=
       [("loss_ce_unscaled", NaN); ("class_error_unscaled", Fin 50)];
     loss_value := NaN |}.

Definition nan_trace : trace num :=
  [Forward (Some {| tensors := [an_image] |}); Criterion; ReduceDict].

(** *** Inputs of the further runs *)

(** A criterion none of whose losses has a weight, one without a
    class_error entry, and one whose weighted loss is itself named loss. *)
Definition fw_unweighted : Framework num :=
  framework out3 good_loss [] [a_batch two_boxes; a_batch two_boxes].
Definition fw_no_class_error : Framework num :=
  framework out3 [("loss_ce", Fin 2)] weights [a_batch two_boxes; a_batch two_boxes].
Definition fw_loss_named : Framework num :=
  framework out3 [("loss", Fin 2); ("class_error", Fin 50)] [("loss", Fin 3)]
            [a_batch two_boxes; a_batch two_boxes].

(** A one-channel 2 x 2 image without zero padding. *)
Definition full_image : image_tensor (F := num) := [[[Fin 1; Fin 0]; [Fin 0; Fin 1]]].

Definition no_boxes : target := a_target [] [] 9.
Definition late_classes : target := a_target [a_box 7; a_box 8] [19; 50] 1.

Definition some_info : loss_info (F := num) :=
  {| losses := PyInt 0; loss_dict_reduced := []; loss_dict_reduced_scaled := [];
     loss_dict_reduced_unscaled := []; loss_value := NaN |}.

End Run.

(** * Properties *)

Section Properties.

Context {F : Type} {SF : Scalar F} {FW : Framework F}.

Implicit Types (P : event F → bool) (h : trace F) (ev : event F).

Abbreviation meters := (gmap string (list F)).

(** ** Running the monad *)

Lemma run_bind {A B} (m : M F A) (f : A → M F B) h :
  (m ≫= f) h =
  match m h return outcome B * trace F with
  | (Ret a, t1) => ((f a (h ++ t1)).1, t1 ++ (f a (h ++ t1)).2)
  | (Raise e, t1) => (Raise e, t1)
  | (Exit c, t1) => (Exit c, t1)
  end.
Proof.
  unfold mbind, M_bind, bind. destruct (m h) as [[a|e|c] t1]; try done.
  by destruct (f a (h ++ t1)).
Qed.

Lemma run_bind_ret {A B} (m : M F A) (f : A → M F B) h a t1 :
  m h = (Ret a, t1) →
  (m ≫= f) h = ((f a (h ++ t1)).1, t1 ++ (f a (h ++ t1)).2).
Proof. intros E. by rewrite run_bind, E. Qed.

Lemma run_bind_raise {A B} (m : M F A) (f : A → M F B) h e t1 :
  m h = (Raise e, t1) → (m ≫= f) h = (Raise e, t1).
Proof. intros E. by rewrite run_bind, E. Qed.

Lemma run_bind_exit {A B} (m : M F A) (f : A → M F B) h c t1 :
  m h = (Exit c, t1) → (m ≫= f) h = (Exit c, t1).
Proof. intros E. by rewrite run_bind, E. Qed.

Lemma run_emit {B} ev (f : unit → M F B) h :
  (emit ev ≫= f) h = ((f tt (h ++ [ev])).1, ev :: (f tt (h ++ [ev])).2).
Proof. by rewrite run_bind. Qed.

Lemma run_call {A B} ev (g : trace F → A) (f : A → M F B) h :
  (call ev g ≫= f) h = ((f (g h) (h ++ [ev])).1, ev :: (f (g h) (h ++ [ev])).2).
Proof. by rewrite run_bind. Qed.

Lemma run_ask {A B} (g : trace F → A) (f : A → M F B) h :
  (ask g ≫= f) h = f (g h) h.
Proof. rewrite run_bind. simpl. rewrite app_nil_r. by destruct (f (g h) h). Qed.

Lemma run_ret {A B} (a : A) (f : A → M F B) h : (mret a ≫= f) h = f a h.
Proof. rewrite run_bind. simpl. rewrite app_nil_r. by destruct (f a h). Qed.

Lemma run_raise {A B} e (f : A → M F B) h : (raise e ≫= f) h = (Raise e, []).
Proof. by rewrite run_bind. Qed.

(** ** Runs that have returned *)

Lemma bind_ret_inv {A B} (m : M F A) (k : A → M F B) h b t :
  (m ≫= k) h = (Ret b, t) →
  ∃ a t1 t2, m h = (Ret a, t1) ∧ k a (h ++ t1) = (Ret b, t2) ∧ t = t1 ++ t2.
Proof.
  rewrite run_bind. destruct (m h) as [[a|e|c] t1]; try done.
  intros E. exists a, t1, (k a (h ++ t1)).2. split; [done |].
  injection E as E1 E2. split; [| done]. rewrite <- E1. by destruct (k a (h ++ t1)).
Qed.

(** A loop that has returned: [I n s acc] holds of the state [s] and the
    calls [acc] made after [n] iterations. *)
Lemma for_each_ret_inv {A St} (xs : list A) (body : A → St → M F St)
    (I : nat → St → trace F → Prop) st h s' t :
  (∀ a s h' s1 t1 n acc,
     I n s acc → body a s h' = (Ret s1, t1) → I (S n) s1 (acc ++ t1)) →
  I 0%nat st [] →
  for_each xs body st h = (Ret s', t) → I (length xs) s' t.
Proof.
  intros Hb. change t with ([] ++ t) at 2.
  change (length xs) with (0 + length xs)%nat.
  generalize (@nil (event F)) as acc. generalize 0%nat as n.
  revert st h t. induction xs as [|a xs IH]; intros st h t n acc Hst E; simpl in E.
  - injection E as -> <-. by rewrite app_nil_r, Nat.add_0_r.
  - apply bind_ret_inv in E as (s1 & t1 & t2 & E1 & E2 & ->).
    rewrite app_assoc. cbn [length]. rewrite Nat.add_succ_r, <- Nat.add_succ_l.
    eapply IH; [| exact E2]. eauto.
Qed.

Lemma emit_ret_inv ev h (a : unit) t : emit ev h = (Ret a, t) → t = [ev].
Proof. by intros [= _ <-]. Qed.

Lemma call_ret_inv {A} ev (g : trace F → A) h a t :
  call ev g h = (Ret a, t) → a = g h ∧ t = [ev].
Proof. by intros [= <- <-]. Qed.

Lemma ask_ret_inv {A} (g : trace F → A) h a t :
  ask g h = (Ret a, t) → a = g h ∧ t = [].
Proof. by intros [= <- <-]. Qed.

Lemma mret_ret_inv {A} (a b : A) h t : (mret a : M F A) h = (Ret b, t) → b = a ∧ t = [].
Proof. by intros [= <- <-]. Qed.

(** Take a run that has returned apart, statement by statement. *)
Ltac run_inv :=
  repeat match goal with
  | H : (let _ := _ in _) _ = (Ret _, _) |- _ => cbv zeta in H
  | H : mbind _ _ _ = (Ret _, _) |- _ =>
      let E := fresh "E" in
      apply bind_ret_inv in H as (? & ? & ? & E & H & ->)
  | H : emit _ _ = (Ret _, _) |- _ => apply emit_ret_inv in H as ->
  | H : call _ _ _ = (Ret _, _) |- _ => apply call_ret_inv in H as [-> ->]
  | H : ask _ _ = (Ret _, _) |- _ => apply ask_ret_inv in H as [-> ->]
  | H : mret _ _ = (Ret _, _) |- _ => apply mret_ret_inv in H as [-> ->]
  | H : raise _ _ = (Ret _, _) |- _ => discriminate H
  | H : sys_exit _ _ = (Ret _, _) |- _ => discriminate H
  | H : (match ?x with _ => _ end) _ = (Ret _, _) |- _ => destruct x eqn:?
  end.

(** ** Events a computation never emits *)

Lemma quiet_ret P {A} (a : A) : quiet P (mret a).
Proof. intros h. constructor. Qed.

Lemma quiet_raise P {A} e : quiet P (raise (A := A) e).
Proof. intros h. constructor. Qed.

Lemma quiet_exit P {A} c : quiet P (sys_exit (A := A) c).
Proof. intros h. constructor. Qed.

Lemma quiet_ask P {A} (g : trace F → A) : quiet P (ask g).
Proof. intros h. constructor. Qed.

Lemma quiet_emit P ev : P ev = false → quiet P (emit ev).
Proof. intros E h. by repeat constructor. Qed.

Lemma quiet_call P {A} ev (g : trace F → A) : P ev = false → quiet P (call ev g).
Proof. intros E h. by repeat constructor. Qed.

Lemma quiet_bind P {A B} (m : M F A) (f : A → M F B) :
  quiet P m → (∀ a, quiet P (f a)) → quiet P (m ≫= f).
Proof.
  intros Hm Hf h. rewrite run_bind. specialize (Hm h).
  destruct (m h) as [[a|e|c] t1]; simpl in *; try done.
  apply Forall_app. split; [done | apply Hf].
Qed.

Lemma quiet_mapM P {A B} (f : A → M F B) (l : list A) :
  (∀ a, quiet P (f a)) → quiet P (mapM f l).
Proof.
  intros Hf. induction l as [|a l IH]; simpl.
  - apply quiet_ret.
  - apply quiet_bind; [done | intros b].
    apply quiet_bind; [done | intros k]. apply quiet_ret.
Qed.

Lemma quiet_for_each P {A S} (xs : list A) (body : A → S → M F S) st :
  (∀ a s, quiet P (body a s)) → quiet P (for_each xs body st).
Proof.
  intros Hb. revert st. induction xs as [|a xs IH]; intros st; simpl.
  - apply quiet_ret.
  - apply quiet_bind; [done | intros s; apply IH].
Qed.

Lemma no_exit_ret {A} (a : A) : no_exit (F := F) (mret a).
Proof. by intros h c. Qed.

Lemma no_exit_raise {A} e : no_exit (F := F) (raise (A := A) e).
Proof. by intros h c. Qed.

Lemma no_exit_ask {A} (g : trace F → A) : no_exit (F := F) (ask g).
Proof. by intros h c. Qed.

Lemma no_exit_emit ev : no_exit (F := F) (emit ev).
Proof. by intros h c. Qed.

Lemma no_exit_call {A} ev (g : trace F → A) : no_exit (F := F) (call ev g).
Proof. by intros h c. Qed.

Lemma no_exit_bind {A B} (m : M F A) (f : A → M F B) :
  no_exit m → (∀ a, no_exit (f a)) → no_exit (m ≫= f).
Proof.
  intros Hm Hf h c. rewrite run_bind. specialize (Hm h).
  destruct (m h) as [[a|e|c'] t1]; simpl in *; try done.
  - apply Hf.
  - by specialize (Hm c').
Qed.

(** ** train_one_epoch: the finiteness check *)

Ltac quiet_step :=
  first
    [ apply quiet_ret | apply quiet_raise | apply quiet_exit | apply quiet_ask
    | apply quiet_emit; reflexivity | apply quiet_call; reflexivity
    | apply quiet_bind; [| intros ?]
    | apply quiet_mapM; intros ?
    | apply quiet_for_each; intros ? ?
    | match goal with
      | |- quiet _ (match ?x with _ => _ end) => destruct x
      end ].

Ltac quiet_tac := repeat quiet_step.

Ltac no_exit_step :=
  first
    [ apply no_exit_ret | apply no_exit_raise | apply no_exit_ask
    | apply no_exit_emit | apply no_exit_call
    | apply no_exit_bind; [| intros ?]
    | match goal with
      | |- no_exit (match ?x with _ => _ end) => destruct x
      end ].

Ltac no_exit_tac := repeat no_exit_step.

Lemma train_forward_quiet sw st :
  quiet (λ e, is_update e || is_stop e) (train_forward sw st).
Proof. unfold train_forward, apply_swav, tensor_item. quiet_tac. Qed.

Lemma train_step_quiet mn st x : quiet is_stop (train_step mn st x).
Proof.
  unfold train_step, backward, grad_norm_step, py_kwargs, dict_item. quiet_tac.
Qed.

Lemma train_step_no_exit mn st x : no_exit (train_step mn st x).
Proof.
  unfold train_step, backward, grad_norm_step, py_kwargs, dict_item. no_exit_tac.
Qed.

Lemma quiet_trace_weaken (P Q : event F → bool) (t : trace F) :
  (∀ e, P e = false → Q e = false) → quiet_trace P t → quiet_trace Q t.
Proof. intros HPQ Ht. eapply Forall_impl; eauto. Qed.

Lemma check_finite_stop lv rd h :
  isfinite lv = false →
  check_finite lv rd h =
  (Exit 1, [MathIsfinite lv; PrintLossStop lv; PrintLossDict rd]).
Proof.
  intros E. unfold check_finite. rewrite run_call, E. cbn [negb].
  rewrite run_emit, run_emit. reflexivity.
Qed.

Lemma check_finite_pass lv rd h :
  isfinite lv = true → check_finite lv rd h = (Ret tt, [MathIsfinite lv]).
Proof. intros E. unfold check_finite. rewrite run_call, E. reflexivity. Qed.

Lemma train_step_starts mn st x h :
  ∃ t2, (train_step mn st x h).2 = ZeroGrad :: t2.
Proof. unfold train_step. rewrite run_emit. simpl. eauto. Qed.

(** C1.  Once lines 54-71 have produced the reduced scaled loss value of a
    batch, with no gradient or optimizer call so far: if the value is not
    finite, the batch prints the loss and the reduced loss dictionary and
    exits with status 1, so that no later statement of this or of a later
    iteration runs; if it is finite, the batch goes on with
    [optimizer.zero_grad()], prints neither message and does not exit. *)
Theorem train_batch_loss_check sw mn st h x t1 :
  train_forward sw st h = (Ret x, t1) →
  let lv := loss_value x in
  let stop := [MathIsfinite lv; PrintLossStop lv; PrintLossDict (loss_dict_reduced x)] in
  quiet_trace is_update t1 ∧
  (isfinite lv = false →
     train_batch sw mn st h = (Exit 1, t1 ++ stop) ∧
     quiet_trace is_update (t1 ++ stop) ∧
     ∀ (i : nat) rest,
       for_each (i :: rest) (λ _, train_batch sw mn) st h = (Exit 1, t1 ++ stop)) ∧
  (isfinite lv = true →
     ∃ o t2,
       train_batch sw mn st h = (o, t1 ++ MathIsfinite lv :: ZeroGrad :: t2) ∧
       (∀ c, o ≠ Exit c) ∧
       quiet_trace is_stop (t1 ++ MathIsfinite lv :: ZeroGrad :: t2)).
Proof.
  intros E lv stop.
  pose proof (train_forward_quiet sw st h) as Hq. rewrite E in Hq. simpl in Hq.
  assert (Hu : quiet_trace is_update t1).
  { revert Hq. apply quiet_trace_weaken. intros e. by destruct (is_update e). }
  assert (Hs : quiet_trace is_stop t1).
  { revert Hq. apply quiet_trace_weaken. intros e. rewrite orb_false_iff. tauto. }
  split; [done |]. split.
  - intros Hfin.
    assert (Hb : train_batch sw mn st h = (Exit 1, t1 ++ stop)).
    { unfold train_batch. rewrite (run_bind_ret _ _ _ _ _ E).
      rewrite (run_bind_exit _ _ _ _ _ (check_finite_stop lv _ _ Hfin)). done. }
    split; [done |]. split.
    + apply Forall_app. split; [done |]. by repeat constructor.
    + intros i rest. simpl. by rewrite (run_bind_exit _ _ _ _ _ Hb).
  - intros Hfin.
    destruct (train_step_starts mn st x ((h ++ t1) ++ [MathIsfinite lv])) as [t2 Ht2].
    exists (train_step mn st x ((h ++ t1) ++ [MathIsfinite lv])).1, t2.
    split; [| split].
    + unfold train_batch. rewrite (run_bind_ret _ _ _ _ _ E).
      rewrite (run_bind_ret _ _ _ _ _ (check_finite_pass lv _ _ Hfin)).
      simpl. by rewrite Ht2.
    + apply train_step_no_exit.
    + apply Forall_app. split; [done |]. constructor; [done |].
      rewrite <- Ht2. apply train_step_quiet.
Qed.

(** ** Observations in order *)

Section InOrder.

Context {B : Type} (f : event F → option B).

Lemma in_order_ret {A} (a : A) : in_order f (mret a) [].
Proof. intros h. split; [apply prefix_nil | done]. Qed.

Lemma in_order_ask {A} (g : trace F → A) : in_order f (ask g) [].
Proof. intros h. split; [apply prefix_nil | done]. Qed.

Lemma in_order_raise {A} e l : in_order f (raise (A := A) e) l.
Proof. intros h. split; [apply prefix_nil | done]. Qed.

Lemma in_order_exit {A} c l : in_order f (sys_exit (A := A) c) l.
Proof. intros h. split; [apply prefix_nil | done]. Qed.

Lemma in_order_emit ev : in_order f (emit ev) (option_list (f ev)).
Proof. intros h. simpl. destruct (f ev); done. Qed.

Lemma in_order_call {A} ev (g : trace F → A) :
  in_order f (call ev g) (option_list (f ev)).
Proof. intros h. simpl. destruct (f ev); done. Qed.

Lemma in_order_bind {A C} (m : M F A) (k : A → M F C) l1 l2 :
  in_order f m l1 → (∀ a, in_order f (k a) l2) → in_order f (m ≫= k) (l1 ++ l2).
Proof.
  intros Hm Hk h. rewrite run_bind. destruct (Hm h) as [Hp Hr].
  destruct (m h) as [[a|e|c] t1]; simpl in *.
  - rewrite omap_app, (Hr a eq_refl). destruct (Hk a (h ++ t1)) as [Hp2 Hr2].
    split; [by apply prefix_app | intros c E; by rewrite (Hr2 c E)].
  - split; [by apply prefix_app_r | done].
  - split; [by apply prefix_app_r | done].
Qed.

Lemma in_order_mapM {A C} (k : A → M F C) (xs : list A) :
  (∀ a, in_order f (k a) []) → in_order f (mapM k xs) [].
Proof.
  intros Hk. induction xs as [|a xs IH]; simpl; [apply in_order_ret |].
  change (@nil B) with (@nil B ++ ([] ++ [])).
  apply in_order_bind; [done | intros b].
  apply in_order_bind; [done | intros bs]. apply in_order_ret.
Qed.

Lemma in_order_for_each {A S} (xs : list A) (body : A → S → M F S)
    (l : A → list B) st :
  (∀ a s, in_order f (body a s) (l a)) →
  in_order f (for_each xs body st) (mjoin (l <$> xs)).
Proof.
  intros Hb. revert st. induction xs as [|a xs IH]; intros st; simpl.
  - apply in_order_ret.
  - apply in_order_bind; [done | intros s; apply IH].
Qed.

Lemma in_order_eq {A} (m : M F A) l l' : in_order f m l' → l' = l → in_order f m l.
Proof. by intros ? <-. Qed.

End InOrder.

Create HintDb in_order.

Ltac in_order_step :=
  first
    [ solve [auto 1 with in_order nocore]
    | apply in_order_ret | apply in_order_ask | apply in_order_raise
    | apply in_order_exit
    | match goal with
      | |- in_order ?f (emit ?ev) _ =>
          let l := eval simpl in (option_list (f ev)) in
          apply (in_order_eq f _ l _ (in_order_emit f ev)); reflexivity
      | |- in_order ?f (call ?ev ?g) _ =>
          let l := eval simpl in (option_list (f ev)) in
          apply (in_order_eq f _ l _ (in_order_call f ev g)); reflexivity
      end
    | apply in_order_mapM; intros ?; eapply in_order_eq
    | apply in_order_bind; [| intros ?]
    | match goal with
      | |- in_order _ (match ?x with _ => _ end) _ => destruct x
      end ].

Ltac in_order_tac :=
  eapply in_order_eq; [repeat in_order_step | ..]; try reflexivity.

(** ** train_one_epoch: the order of the operations in a batch *)

Lemma grad_norm_step_handling mn :
  in_order handling_of (grad_norm_step mn)
           [if fgt mn (of_Z 0) then Clipped mn else NormOnly mn].
Proof.
  unfold grad_norm_step.
  destruct (fgt mn (of_Z 0)); apply (in_order_call handling_of).
Qed.

Lemma train_batch_order sw mn st : in_order op_of (train_batch sw mn st) batch_order.
Proof.
  unfold train_batch, train_forward, check_finite, train_step, apply_swav,
    tensor_item, backward, grad_norm_step, py_kwargs, dict_item.
  in_order_tac.
Qed.

#[local] Hint Resolve grad_norm_step_handling : in_order.

Lemma train_batch_handling sw mn st :
  in_order handling_of (train_batch sw mn st)
           [if fgt mn (of_Z 0) then Clipped mn else NormOnly mn].
Proof.
  unfold train_batch, train_forward, check_finite, train_step, apply_swav,
    tensor_item, backward, py_kwargs, dict_item.
  in_order_tac.
Qed.

Lemma train_forward_order sw st :
  in_order op_of (train_forward sw st) [OpForward; OpCriterion].
Proof. unfold train_forward, apply_swav, tensor_item. in_order_tac. Qed.

Lemma train_forward_handling sw st : in_order handling_of (train_forward sw st) [].
Proof. unfold train_forward, apply_swav, tensor_item. in_order_tac. Qed.

Lemma prefix_app_nil {A} (l r : list A) : l ++ r `prefix_of` l → r = [].
Proof.
  intros Hp. apply prefix_length in Hp. rewrite length_app in Hp.
  destruct r; [done | simpl in Hp; lia].
Qed.

(** C6, amended.  In a batch whose forward part (lines 54-71) completes
    with a finite loss value and whose weighted loss sum of line 61 is a
    tensor, the run goes through the forward pass, the criterion, the
    finiteness check, the gradient zeroing, the backward pass, the
    gradient-norm call and the optimizer step, in this order and each once;
    the gradient-norm call is [clip_grad_norm_] with [max_norm] exactly when
    [max_norm > 0] holds and [get_total_grad_norm] otherwise, in particular
    when [max_norm <= 0].  In every batch, whatever its outcome, the
    operations performed are a prefix of this sequence. *)
Theorem train_batch_operations sw mn st h x t1 v :
  train_forward sw st h = (Ret x, t1) →
  isfinite (loss_value x) = true →
  losses x = PyFloat v →
  let gn := if fgt mn (of_Z 0) then ClipGradNorm mn else GetTotalGradNorm mn in
  (∃ o t2,
     train_batch sw mn st h
     = (o, t1 ++ [MathIsfinite (loss_value x); ZeroGrad; Backward v; gn;
                  OptimizerStep] ++ t2) ∧
     omap op_of (train_batch sw mn st h).2 = batch_order ∧
     omap handling_of (train_batch sw mn st h).2
     = [if fgt mn (of_Z 0) then Clipped mn else NormOnly mn]) ∧
  (fle mn (of_Z 0) = true → gn = GetTotalGradNorm mn) ∧
  (∀ sw' st', in_order op_of (train_batch sw' mn st') batch_order) ∧
  (∀ sw' st', in_order handling_of (train_batch sw' mn st')
                       [if fgt mn (of_Z 0) then Clipped mn else NormOnly mn]).
Proof.
  intros E Hfin Hl gn.
  split; [| split; [| split; [intros; apply train_batch_order
                             | intros; apply train_batch_handling]]].
  2:{ intros Hle. unfold gn. by rewrite (fle_not_fgt _ _ Hle). }
  assert (Eb : ∃ o t2,
    train_batch sw mn st h
    = (o, t1 ++ [MathIsfinite (loss_value x); ZeroGrad; Backward v; gn;
                 OptimizerStep] ++ t2)).
  { unfold train_batch. rewrite (run_bind_ret _ _ _ _ _ E).
    rewrite (run_bind_ret _ _ _ _ _ (check_finite_pass _ _ _ Hfin)).
    unfold train_step. rewrite run_emit. rewrite Hl. unfold backward.
    rewrite run_emit. unfold grad_norm_step, gn.
    destruct (fgt mn (of_Z 0)); rewrite run_call, run_emit; by eexists _, _. }
  destruct Eb as (o & t2 & Eb). exists o, t2. split; [exact Eb |].
  destruct (train_forward_order sw st h) as [_ Hf]. rewrite E in Hf.
  specialize (Hf x eq_refl). cbn [snd] in Hf.
  destruct (train_forward_handling sw st h) as [_ Hg]. rewrite E in Hg.
  specialize (Hg x eq_refl). cbn [snd] in Hg.
  destruct (train_batch_order sw mn st h) as [Ho _].
  destruct (train_batch_handling sw mn st h) as [Hh _].
  rewrite Eb in Ho, Hh |- *. cbn [snd] in *.
  rewrite !omap_app, Hf in Ho |- *. rewrite !omap_app, Hg in Hh |- *.
  assert (E5 : omap op_of [MathIsfinite (loss_value x); ZeroGrad; Backward v; gn;
                           OptimizerStep]
               = [OpFiniteCheck; OpZeroGrad; OpBackward; OpGradNorm; OpOptimizerStep]).
  { unfold gn. by destruct (fgt mn (of_Z 0)). }
  assert (E6 : omap handling_of [MathIsfinite (loss_value x); ZeroGrad; Backward v;
                                 gn; OptimizerStep]
               = [if fgt mn (of_Z 0) then Clipped mn else NormOnly mn]).
  { unfold gn. by destruct (fgt mn (of_Z 0)). }
  rewrite E5 in Ho |- *. rewrite E6 in Hh |- *. split.
  - change ([OpForward; OpCriterion]
            ++ [OpFiniteCheck; OpZeroGrad; OpBackward; OpGradNorm; OpOptimizerStep]
            ++ omap op_of t2) with (batch_order ++ omap op_of t2) in *.
    by rewrite (prefix_app_nil _ _ Ho), app_nil_r.
  - cbn [app] in *. change (?a :: omap handling_of t2)
      with ([a] ++ omap handling_of t2) in *.
    by rewrite (prefix_app_nil _ _ Hh).
Qed.

(** ** Runs that return *)

Lemma returns_ret {A} (a : A) h (Q : A → trace F → Prop) :
  Q a [] → returns (mret a) h Q.
Proof. intros HQ. by exists a, []. Qed.

Lemma returns_ask {A} (g : trace F → A) h (Q : A → trace F → Prop) :
  Q (g h) [] → returns (ask g) h Q.
Proof. intros HQ. by exists (g h), []. Qed.

Lemma returns_emit ev h (Q : unit → trace F → Prop) :
  Q tt [ev] → returns (emit ev) h Q.
Proof. intros HQ. by exists tt, [ev]. Qed.

Lemma returns_call {A} ev (g : trace F → A) h (Q : A → trace F → Prop) :
  Q (g h) [ev] → returns (call ev g) h Q.
Proof. intros HQ. by exists (g h), [ev]. Qed.

Lemma returns_bind {A B} (m : M F A) (k : A → M F B) h (Q : B → trace F → Prop) :
  returns m h (λ a t1, returns (k a) (h ++ t1) (λ b t2, Q b (t1 ++ t2))) →
  returns (m ≫= k) h Q.
Proof.
  intros (a & t1 & E & b & t2 & E2 & HQ). exists b, (t1 ++ t2).
  split; [| done]. by rewrite (run_bind_ret _ _ _ _ _ E), E2.
Qed.

Lemma returns_impl {A} (m : M F A) h (Q Q' : A → trace F → Prop) :
  returns m h Q → (∀ a t, Q a t → Q' a t) → returns m h Q'.
Proof. intros (a & t & E & HQ) HQQ. exists a, t. eauto. Qed.

Lemma returns_mapM {A B} (k : A → M F B) (xs : list A) h :
  (∀ a h', returns (k a) h' (λ _ _, True)) →
  returns (mapM k xs) h (λ _ _, True).
Proof.
  intros Hk. revert h. induction xs as [|a xs IH]; intros h; simpl.
  - by apply returns_ret.
  - apply returns_bind. eapply returns_impl; [apply Hk |]. intros b t1 _.
    apply returns_bind. eapply returns_impl; [apply IH |]. intros bs t2 _.
    by apply returns_ret.
Qed.

(** A loop whose body keeps an invariant returns with the invariant. *)
Lemma returns_for_each {A S} (xs : list A) (body : A → S → M F S) (I : S → Prop) st h :
  I st →
  (∀ a s h', I s → returns (body a s) h' (λ s' _, I s')) →
  returns (for_each xs body st) h (λ s' _, I s').
Proof.
  intros Hst Hb. revert st h Hst. induction xs as [|a xs IH]; intros st h Hst; simpl.
  - by apply returns_ret.
  - apply returns_bind. eapply returns_impl; [by apply Hb |].
    intros s t1 Hs. simpl. eapply returns_impl; [by apply IH |]. done.
Qed.


Ltac returns_step :=
  lazymatch goal with
  | |- returns (mbind _ _) _ _ => apply returns_bind
  | |- returns (mret _) _ _ => apply returns_ret
  | |- returns (ask _) _ _ => apply returns_ask
  | |- returns (emit _) _ _ => apply returns_emit
  | |- returns (call _ _) _ _ => apply returns_call
  end.

(** ** train_one_epoch: the loop and its result *)

Lemma apply_swav_returns sw targets h :
  (sw = None ∨ is_Some targets) →
  returns (apply_swav sw targets) h (λ _ _, True).
Proof.
  intros Hs. unfold apply_swav. destruct sw as [s|]; [| by apply returns_ret].
  destruct Hs as [? | [ts ->]]; [done |].
  apply returns_bind. eapply returns_impl.
  - apply returns_mapM. intros a h'. apply returns_bind. apply returns_call.
    by apply returns_ret.
  - intros ts' t _. by apply returns_ret.
Qed.

Lemma tracked_meter_update (m : meters) name v name' :
  name' = name ∨ tracked m name' → tracked (meter_update name v m) name'.
Proof.
  unfold tracked, meter_update. rewrite lookup_insert_is_Some.
  destruct (decide (name = name')); naive_solver.
Qed.

Lemma tracked_logger_update kw (m : meters) name :
  name ∈ kw.*1 ∨ tracked m name → tracked (logger_update kw m) name.
Proof.
  unfold logger_update. revert m. induction kw as [|[k v] kw IH]; intros m; simpl.
  - rewrite elem_of_nil. tauto.
  - rewrite elem_of_cons. intros Hk. apply IH.
    destruct Hk as [[-> | Hk] | Hk]; [right | by left | right];
      apply tracked_meter_update; auto.
Qed.

Lemma tracked_after_batch (m : meters) kw lossv v1 v2 v3 names :
  Forall (tracked m) names →
  Forall (tracked
            (meter_update "grad_norm" v3
               (meter_update "lr" v2
                  (meter_update "class_error" v1
                     (logger_update (("loss", lossv) :: kw) m)))))
         ("loss" :: "class_error" :: "lr" :: "grad_norm" :: names).
Proof.
  intros Hn.
  assert (Hk : ∀ k, k ∈ ["loss"; "class_error"; "lr"; "grad_norm"] ∨ tracked m k →
    tracked (meter_update "grad_norm" v3
               (meter_update "lr" v2
                  (meter_update "class_error" v1
                     (logger_update (("loss", lossv) :: kw) m)))) k).
  { intros k Hk.
    apply tracked_meter_update. destruct (decide (k = "grad_norm")); [by left | right].
    apply tracked_meter_update. destruct (decide (k = "lr")); [by left | right].
    apply tracked_meter_update. destruct (decide (k = "class_error")); [by left | right].
    apply tracked_logger_update. rewrite fmap_cons, elem_of_cons. simpl.
    destruct Hk as [Hk | Hk]; [| by right].
    left. left. set_solver. }
  repeat (apply Forall_cons; split; [apply Hk; left; set_solver |]).
  eapply Forall_impl; [exact Hn |]. intros k ?. apply Hk. by right.
Qed.

Lemma check_finite_returns lv rd h (Q : unit → trace F → Prop) :
  isfinite lv = true → Q tt [MathIsfinite lv] → returns (check_finite lv rd) h Q.
Proof. intros E HQ. exists tt, [MathIsfinite lv]. by rewrite check_finite_pass. Qed.

Lemma grad_norm_step_returns mn h (Q : F → trace F → Prop) :
  (∀ v ev, Q v [ev]) → returns (grad_norm_step mn) h Q.
Proof.
  intros HQ. unfold grad_norm_step.
  destruct (fgt mn (of_Z 0)); by apply returns_call.
Qed.

Lemma train_step_returns mn st x h v names :
  losses x = PyFloat v →
  NoDup ("loss" :: (loss_dict_reduced_scaled x).*1
                     ++ (loss_dict_reduced_unscaled x).*1) →
  is_Some (dict_get (loss_dict_reduced x) "class_error") →
  Forall (tracked (metric_logger st)) names →
  returns (train_step mn st x) h
    (λ st' _, Forall (tracked (metric_logger st'))
                     ("loss" :: "class_error" :: "lr" :: "grad_norm" :: names)).
Proof.
  intros Hl Hnd [ce Hce] Hn. unfold train_step. rewrite Hl. unfold backward.
  repeat returns_step. apply grad_norm_step_returns. intros gn ev.
  repeat returns_step. unfold py_kwargs.
  rewrite bool_decide_eq_true_2 by (by rewrite fmap_cons, fmap_app).
  repeat returns_step. unfold dict_item. rewrite Hce.
  repeat returns_step. cbn [metric_logger].
  by apply tracked_after_batch.
Qed.

Lemma batch_ok_inv sw st h :
  batch_ok sw st h = true →
  ∃ x t1 v,
    train_forward sw st h = (Ret x, t1) ∧
    isfinite (loss_value x) = true ∧
    losses x = PyFloat v ∧
    NoDup ("loss" :: (loss_dict_reduced_scaled x).*1
                       ++ (loss_dict_reduced_unscaled x).*1) ∧
    is_Some (dict_get (loss_dict_reduced x) "class_error").
Proof.
  unfold batch_ok. destruct (train_forward sw st h) as [[x|e|c] t1]; try done.
  rewrite !andb_true_iff, !bool_decide_eq_true. intros [[[Hf Hl] Hnd] Hce].
  destruct (losses x) as [z|v] eqn:El; [done |]. by exists x, t1, v.
Qed.

Lemma train_batch_runs sw mn st h names :
  batch_ok sw st h = true →
  Forall (tracked (metric_logger st)) names →
  returns (train_batch sw mn st) h
    (λ st' _, Forall (tracked (metric_logger st'))
                     ("loss" :: "class_error" :: "lr" :: "grad_norm" :: names)).
Proof.
  intros Hok Hn. destruct (batch_ok_inv _ _ _ Hok) as (x & t1 & v & E & Hf & Hl & Hnd & Hce).
  unfold train_batch. apply returns_bind. exists x, t1. split; [exact E |].
  apply returns_bind. apply check_finite_returns; [exact Hf |].
  eapply returns_impl; [by apply (train_step_returns mn st x _ v names) |]. done.
Qed.

Lemma batches_run sw mn n names :
  ∀ k st h,
    batches_ok sw mn n st h = true →
    Forall (tracked (metric_logger st)) names →
    returns (for_each (seq k n) (λ _ st, train_batch sw mn st) st) h
            (λ st' _, Forall (tracked (metric_logger st')) names).
Proof.
  induction n as [|n IH]; intros k st h Hok Hn; [by apply returns_ret |].
  cbn [batches_ok] in Hok. apply andb_true_iff in Hok as [Hb Hrest].
  destruct (train_batch_runs sw mn st h names Hb Hn) as (st1 & t & E & Ht).
  rewrite E in Hrest. cbn [seq for_each]. apply returns_bind.
  exists st1, t. split; [exact E |].
  eapply returns_impl; [apply IH; [exact Hrest |] |]; [| done].
  by do 4 apply Forall_cons in Ht as [_ Ht].
Qed.



Lemma train_loop_returns sw dl epoch mn h :
  dl ≠ [] → epoch_ok sw mn dl h = true →
  returns (train_loop sw dl epoch mn) h
          (λ st _, Forall (tracked (metric_logger st)) meter_names).
Proof.
  intros Hdl Hok. unfold train_loop. repeat returns_step.
  rewrite <- !app_assoc. cbn [app].
  destruct dl as [|b dl]; [done |]. unfold epoch_ok, loop_start in Hok.
  cbn [length fst snd batches_ok] in Hok. apply andb_true_iff in Hok as [Hb Hrest].
  destruct (train_batch_runs sw mn _ _ [] Hb ltac:(constructor))
    as (st1 & t & E & Ht).
  rewrite E in Hrest. cbn [length seq for_each]. apply returns_bind.
  exists st1, t. split; [exact E |].
  eapply returns_impl; [by apply (batches_run sw mn _ meter_names) |]. done.
Qed.

Lemma train_epoch_runs sw dl epoch mn h :
  dl ≠ [] → epoch_ok sw mn dl h = true →
  ∃ d t, train_one_epoch sw dl epoch mn h = (Ret d, t).
Proof.
  intros Hdl Hok.
  destruct (train_loop_returns sw dl epoch mn h Hdl Hok) as (st & t & E & _).
  unfold train_one_epoch. rewrite (run_bind_ret _ _ _ _ _ E).
  rewrite run_emit, run_emit. by eexists _, _.
Qed.


(** ** plot_result: the class-name lookup *)

Lemma wrap_in_range d z : dtype_min d ≤ z ≤ dtype_max d → wrap d z = z.
Proof.
  intros Hz. unfold wrap. rewrite Z.mod_small; [lia |].
  destruct d; cbn in *; lia.
Qed.

Lemma bump_in_range d l :
  in_dtype_range d l → bump d l = Z.min (l + 1) 20 ∧ 1 ≤ bump d l ≤ 20.
Proof.
  intros [Hl Hu]. unfold bump. rewrite wrap_in_range; [lia |].
  destruct d; cbn in *; lia.
Qed.

Lemma class_name_total k : 1 ≤ k ≤ 20 → is_Some (class_name !! pretty k).
Proof.
  intros Hk.
  assert (Hall : Forall (λ k, is_Some (class_name !! pretty k)) (Z.of_nat <$> seq 1 20)).
  { apply (bool_decide_unpack _). vm_compute. exact I. }
  rewrite Forall_forall in Hall. apply Hall.
  apply list_elem_of_fmap. exists (Z.to_nat k). split; [lia |].
  apply elem_of_seq. lia.
Qed.

Lemma label_step_run cn d (done todo : list Z) l acc h name :
  cn !! pretty (bump d l) = Some name →
  label_step cn (length done) ({| dtype := d; ivals := done ++ l :: todo |}, acc) h
  = (Ret ({| dtype := d; ivals := (done ++ [bump d l]) ++ todo |}, acc ++ [name]), []).
Proof.
  intros Hn. unfold label_step, item. cbn [dtype ivals].
  rewrite list_lookup_middle by done. rewrite run_ret.
  rewrite insert_app_r_alt by done. rewrite Nat.sub_diag. cbn [insert list_insert].
  rewrite list_lookup_middle by done. rewrite run_ret, Hn.
  by rewrite <- app_assoc.
Qed.

Lemma label_step_key_error cn d (done todo : list Z) l acc h :
  cn !! pretty (bump d l) = None →
  label_step cn (length done) ({| dtype := d; ivals := done ++ l :: todo |}, acc) h
  = (Raise (KeyError (pretty (bump d l))), []).
Proof.
  intros Hn. unfold label_step, item. cbn [dtype ivals].
  rewrite list_lookup_middle by done. rewrite run_ret.
  rewrite insert_app_r_alt by done. rewrite Nat.sub_diag. cbn [insert list_insert].
  rewrite list_lookup_middle by done. by rewrite run_ret, Hn.
Qed.

Lemma label_loop_from cn d (done todo : list Z) acc h :
  Forall (λ l, is_Some (cn !! pretty (bump d l))) todo →
  ∃ names,
    for_each (seq (length done) (length todo)) (label_step cn)
             ({| dtype := d; ivals := done ++ todo |}, acc) h
    = (Ret ({| dtype := d; ivals := done ++ (bump d <$> todo) |}, acc ++ names), [])
    ∧ Forall2 (λ l name, cn !! pretty (bump d l) = Some name) todo names.
Proof.
  intros Htodo. revert done acc h.
  induction Htodo as [|l todo [name Hl] _ IH]; intros done acc h.
  - exists []. by rewrite !app_nil_r.
  - destruct (IH (done ++ [bump d l]) (acc ++ [name]) (h ++ [])) as (names & E & Hn).
    exists (name :: names). split; [| by constructor].
    cbn [length seq for_each].
    rewrite (run_bind_ret _ _ _ _ _ (label_step_run cn d done todo l acc h name Hl)).
    rewrite length_app, Nat.add_1_r in E. rewrite E. cbn [fst snd fmap list_fmap app].
    by rewrite <- !app_assoc.
Qed.

Lemma label_loop_run cn (t : itensor) h :
  Forall (λ l, is_Some (cn !! pretty (bump (dtype t) l))) (ivals t) →
  ∃ names,
    label_loop cn t h
    = (Ret ({| dtype := dtype t; ivals := bump (dtype t) <$> ivals t |}, names), [])
    ∧ Forall2 (λ l name, cn !! pretty (bump (dtype t) l) = Some name) (ivals t) names.
Proof.
  intros Ht. destruct t as [d vals]. cbn [dtype ivals] in *.
  destruct (label_loop_from cn d [] vals [] h Ht) as (names & E & Hn).
  exists names. split; [| done]. exact E.
Qed.

Lemma run_mret {A} (a : A) h : (mret a : M F A) h = (Ret a, []).
Proof. reflexivity. Qed.

Lemma draw_loop_run c pt (entries : list (F * box * string)) h :
  for_each entries (λ entry _, draw c pt entry) tt h = (Ret tt, drawn c pt entries).
Proof.
  revert h. induction entries as [|[[p [[[xmin ymin] xmax] ymax]] label] entries IH];
    intros h; [done |].
  cbn [for_each]. unfold draw at 1.
  assert (E : (emit (AddPatch xmin ymin (fsub xmax xmin) (fsub ymax ymin) c 2);;
               if pt then emit (Text xmin ymin label "g")
               else emit (Text xmin ymax label "r")) h
              = (Ret tt, [AddPatch xmin ymin (fsub xmax xmin) (fsub ymax ymin) c 2;
                          if pt then Text xmin ymin label "g"
                          else Text xmin ymax label "r"])).
  { rewrite run_emit. by destruct pt. }
  rewrite (run_bind_ret _ _ _ _ _ E), IH. reflexivity.
Qed.

Lemma plot_result_ground_truth image out_bbox bs logits0 ls c cn (t : itensor) h :
  Forall (λ l, is_Some (cn !! pretty (bump (dtype t) l))) (ivals t) →
  ∃ names,
    names_of cn t names ∧
    plot_result image (out_bbox :: bs) (logits0 :: ls) c false cn t h
    = (Ret {| dtype := dtype t; ivals := bump (dtype t) <$> ivals t |},
       Imshow (crop image) true
         :: drawn c false (zip3 (kept_prob logits0) (kept_boxes image out_bbox logits0)
                                names)).
Proof.
  intros Ht. unfold plot_result, item0. rewrite !run_ret. cbn [negb].
  destruct (label_loop_run cn t h Ht) as (names & E & Hn).
  exists names. split; [done |].
  rewrite (run_bind_ret _ _ _ _ _ E). unfold plot_image. rewrite run_emit.
  rewrite (run_bind_ret _ _ _ _ _ (draw_loop_run _ _ _ _)), run_mret.
  cbn [fst snd]. by rewrite app_nil_r.
Qed.

Lemma plot_result_predicted image out_bbox bs logits0 ls c cn (t : itensor) h :
  Forall (λ l, is_Some (cn !! pretty (bump Int64 l))) (ivals (kept_cls logits0)) →
  ∃ names,
    names_of cn (kept_cls logits0) names ∧
    plot_result image (out_bbox :: bs) (logits0 :: ls) c true cn t h
    = (Ret t,
       Imshow (crop image) true
         :: drawn c true (zip3 (kept_prob logits0) (kept_boxes image out_bbox logits0)
                               names)).
Proof.
  intros Ht. unfold plot_result, item0. rewrite !run_ret. cbn [negb].
  destruct (label_loop_run cn (kept_cls logits0) h Ht) as (names & E & Hn).
  exists names. split; [done |].
  assert (E' : (label_loop cn (kept_cls logits0)
                  ≫= λ '(_, label_list), mret (t, label_list)) h
               = (Ret (t, names), [])).
  { by rewrite (run_bind_ret _ _ _ _ _ E). }
  fold (kept_cls logits0). rewrite (run_bind_ret _ _ _ _ _ E').
  unfold plot_image. rewrite run_emit.
  rewrite (run_bind_ret _ _ _ _ _ (draw_loop_run _ _ _ _)), run_mret.
  cbn [fst snd]. by rewrite app_nil_r.
Qed.

Lemma in_range_lookup d (vals : list Z) :
  Forall (in_dtype_range d) vals →
  Forall (λ l, is_Some (class_name !! pretty (bump d l))) vals.
Proof.
  intros Hv. eapply Forall_impl; [exact Hv |]. intros l Hl.
  apply class_name_total. by destruct (bump_in_range d l Hl).
Qed.

Lemma in_range_bump d (vals : list Z) :
  Forall (in_dtype_range d) vals →
  bump d <$> vals = (λ l, Z.min (l + 1) 20) <$> vals.
Proof.
  intros Hv. apply Forall_fmap_ext_1. eapply Forall_impl; [exact Hv |].
  intros l Hl. by destruct (bump_in_range d l Hl).
Qed.

(** C10, amended.  A class index that is nonnegative and below the largest
    value of its tensor's dtype is incremented by one and clamped to at most
    20, which gives a key among the strings of 1 ... 20, and the class_name
    lookup of that key succeeds.  So [plot_result] raises no KeyError on
    such indices: called on ground-truth labels it returns with the label
    tensor mutated in place to [min(l + 1, 20)], called on predicted
    classes it returns and leaves the label tensor as it was. *)
Theorem plot_result_class_names d l image out_bbox bs logits0 ls c (t : itensor) h :
  in_dtype_range d l →
  Forall (in_dtype_range (dtype t)) (ivals t) →
  Forall (in_dtype_range Int64) (ivals (kept_cls logits0)) →
  (bump d l = Z.min (l + 1) 20 ∧ 1 ≤ bump d l ≤ 20 ∧
   is_Some (class_name !! pretty (bump d l))) ∧
  (∃ tr, plot_result image (out_bbox :: bs) (logits0 :: ls) c false class_name t h
         = (Ret {| dtype := dtype t; ivals := (λ l, Z.min (l + 1) 20) <$> ivals t |}, tr)) ∧
  (∃ tr, plot_result image (out_bbox :: bs) (logits0 :: ls) c true class_name t h
         = (Ret t, tr)).
Proof.
  intros Hl Ht Hp. split; [| split].
  - destruct (bump_in_range d l Hl) as [E Hb].
    split; [done |]. split; [done |]. by apply class_name_total.
  - destruct (plot_result_ground_truth image out_bbox bs logits0 ls c class_name t h
                (in_range_lookup _ _ Ht)) as (names & _ & E).
    rewrite (in_range_bump _ _ Ht) in E. eauto.
  - destruct (plot_result_predicted image out_bbox bs logits0 ls c class_name t h
                (in_range_lookup _ _ Hp)) as (names & _ & E).
    eauto.
Qed.

(** ** viz: what is drawn and saved *)

Lemma mapM_run {A B} (k : A → M F B) (g : A → option B) (xs : list A) h :
  Forall (λ x, ∃ b, g x = Some b ∧ ∀ h', k x h' = (Ret b, [])) xs →
  mapM k xs h = (Ret (omap g xs), []).
Proof.
  intros Hxs. revert h. induction Hxs as [|x xs (b & Hg & Hk) _ IH]; intros h; [done |].
  cbn [mapM omap list_omap]. rewrite Hg.
  rewrite (run_bind_ret _ _ _ _ _ (Hk h)), (run_bind_ret _ _ _ _ _ (IH _)).
  by rewrite run_mret.
Qed.

Lemma omap_length_all {A B} (g : A → option B) (xs : list A) :
  Forall (λ x, is_Some (g x)) xs → length (omap g xs) = length xs.
Proof.
  induction 1 as [|x xs [b Hb] _ IH]; [done |]. simpl. rewrite Hb. simpl. by f_equal.
Qed.

Lemma item0_cons {A} (x : A) (l : list A) : item0 (x :: l) = (mret x : M F A).
Proof. reflexivity. Qed.

Lemma select_top_run top_k (o : outputs) logits0 ls boxes0 bs h :
  pred_logits o = logits0 :: ls →
  pred_boxes o = boxes0 :: bs →
  Forall (λ row, is_Some (softmax row !! 1%nat)) logits0 →
  top_indices top_k logits0 ≠ [] →
  Forall (λ i, is_Some (logits0 !! i) ∧ is_Some (boxes0 !! i)) (top_indices top_k logits0) →
  select_top top_k o h
  = (Ret ([omap (boxes0 !!.) (top_indices top_k logits0)],
          [omap (logits0 !!.) (top_indices top_k logits0)]), []).
Proof.
  intros El Eb Hrow Hne Hidx. unfold select_top. rewrite El, Eb.
  rewrite item0_cons at 1. rewrite run_ret.
  assert (E1 : ∀ h', mapM (λ row, item (softmax row) 1) logits0 h'
                     = (Ret (class1 logits0), [])).
  { intros h'. apply mapM_run. eapply Forall_impl; [exact Hrow |].
    intros row [p Hp]. exists p. split; [done |]. intros h''.
    unfold item. by rewrite Hp. }
  rewrite (run_bind_ret _ _ _ _ _ (E1 _)). fold (top_indices top_k logits0).
  assert (Lb : length (omap (boxes0 !!.) (top_indices top_k logits0))
               = length (top_indices top_k logits0)).
  { apply omap_length_all. eapply Forall_impl; [exact Hidx |]. by intros i [_ ?]. }
  assert (Ll : length (omap (logits0 !!.) (top_indices top_k logits0))
               = length (top_indices top_k logits0)).
  { apply omap_length_all. eapply Forall_impl; [exact Hidx |]. by intros i [? _]. }
  assert (E2 : ∀ h', mapM (λ i, b0 ← item0 (boxes0 :: bs); item b0 i)
                          (top_indices top_k logits0) h'
                     = (Ret (omap (boxes0 !!.) (top_indices top_k logits0)), [])).
  { intros h'. apply mapM_run. eapply Forall_impl; [exact Hidx |].
    intros i [_ [b Hb]]. exists b. split; [done |]. intros h''.
    unfold item0, item. by rewrite run_ret, Hb. }
  assert (E3 : ∀ h', mapM (λ i, l0 ← item0 (logits0 :: ls); item l0 i)
                          (top_indices top_k logits0) h'
                     = (Ret (omap (logits0 !!.) (top_indices top_k logits0)), [])).
  { intros h'. apply mapM_run. eapply Forall_impl; [exact Hidx |].
    intros i [[l Hl] _]. exists l. split; [done |]. intros h''.
    unfold item0, item. by rewrite run_ret, Hl. }
  assert (S1 : ∀ {A} (rows : list A) h', rows ≠ [] → torch_stack rows h' = (Ret rows, [])).
  { intros A rows h' Hr. by destruct rows. }
  assert (Nb : omap (boxes0 !!.) (top_indices top_k logits0) ≠ []).
  { intros E. rewrite E in Lb. by destruct (top_indices top_k logits0). }
  assert (Nl : omap (logits0 !!.) (top_indices top_k logits0) ≠ []).
  { intros E. rewrite E in Ll. by destruct (top_indices top_k logits0). }
  assert (E4 : ∀ h', (rows ← mapM (λ i, b0 ← item0 (boxes0 :: bs); item b0 i)
                               (top_indices top_k logits0); torch_stack rows) h'
                     = (Ret (omap (boxes0 !!.) (top_indices top_k logits0)), [])).
  { intros h'. by rewrite (run_bind_ret _ _ _ _ _ (E2 _)), S1. }
  assert (E5 : ∀ h', (rows ← mapM (λ i, l0 ← item0 (logits0 :: ls); item l0 i)
                               (top_indices top_k logits0); torch_stack rows) h'
                     = (Ret (omap (logits0 !!.) (top_indices top_k logits0)), [])).
  { intros h'. by rewrite (run_bind_ret _ _ _ _ _ (E3 _)), S1. }
  rewrite (run_bind_ret _ _ _ _ _ (E4 _)), (run_bind_ret _ _ _ _ _ (E5 _)).
  by rewrite run_mret.
Qed.

Lemma mask_select_all {A} (xs : list A) :
  mask_select (replicate (length xs) true) xs = xs.
Proof.
  unfold mask_select. induction xs as [|x xs IH]; [done |].
  cbn [length replicate zip zip_with]. rewrite filter_cons_True by done.
  cbn [fmap list_fmap snd]. by f_equal.
Qed.








Lemma quiet_omap_nil {B} (f : event F → option B) (t : trace F) :
  quiet_trace (λ e, bool_decide (is_Some (f e))) t → omap f t = [].
Proof.
  induction 1 as [|e t He _ IH]; [done |]. simpl.
  destruct (f e) eqn:E; [| done].
  rewrite bool_decide_eq_false in He. destruct He. eauto.
Qed.

Lemma quiet_in_order {A B} (f : event F → option B) (m : M F A) :
  quiet (λ e, bool_decide (is_Some (f e))) m → in_order f m [].
Proof.
  intros Hq h. rewrite (quiet_omap_nil f _ (Hq h)). split; [done | done].
Qed.

Lemma in_order_ret_bind {A B C} (f : event F → option B) (a : A) (k : A → M F C) l :
  in_order f (k a) l → in_order f (mret a ≫= k) l.
Proof. intros Hk h. rewrite run_ret. apply Hk. Qed.

Lemma in_order_raise_bind {A B C} (f : event F → option B) e (k : A → M F C) l :
  in_order f (raise e ≫= k) l.
Proof. intros h. rewrite run_raise. split; [apply prefix_nil | done]. Qed.

Lemma select_top_quiet P top_k o : quiet P (select_top top_k o).
Proof. unfold select_top, item0, item, torch_stack. quiet_tac. Qed.

Lemma plot_result_quiet P image bs ls c pt cn t :
  P (Imshow (crop image) true) = false →
  (∀ x y w ht c lw, P (AddPatch x y w ht c lw) = false) →
  (∀ x y s c, P (Text x y s c) = false) →
  quiet P (plot_result image bs ls c pt cn t).
Proof.
  intros H1 H2 H3.
  unfold plot_result, item0, label_loop, label_step, item, plot_image, draw.
  repeat first
    [ apply quiet_emit; solve [auto] | quiet_step ].
Qed.

Lemma select_top_savefig top_k o : in_order savefig_of (select_top top_k o) [].
Proof. apply quiet_in_order, select_top_quiet. Qed.

Lemma plot_result_savefig image bs ls c pt cn t :
  in_order savefig_of (plot_result image bs ls c pt cn t) [].
Proof. apply quiet_in_order. by apply plot_result_quiet. Qed.

#[local] Hint Resolve select_top_savefig plot_result_savefig : in_order.







(** ** evaluate: output_dir, the return statement, the evaluator *)

Lemma load_detections_vis targets (st : eval_state (F := F)) :
  load_detections "vis" targets st = mret (model_lambda st).
Proof. reflexivity. Qed.

Lemma save_detections_vis targets (o : outputs (F := F)) :
  save_detections "vis" targets o = mret tt.
Proof. reflexivity. Qed.

Lemma measure_ap_quiet P name logits t0 :
  (∀ y s, P (AveragePrecisionScore y s) = false) →
  (∀ p n v, P (AppendFile p n v) = false) →
  (∀ c v, P (PrintAP c v) = false) →
  quiet P (measure_ap name logits t0).
Proof.
  intros H1 H2 H3.
  unfold measure_ap, measure_class, class_ap, ap_at, py_mean, item0, item.
  repeat first
    [ apply quiet_emit; solve [auto] | apply quiet_call; solve [auto] | quiet_step ].
Qed.

Lemma evaluate_batch_quiet pp pan b (st : eval_state) :
  quiet is_detection_file (evaluate_batch pp "vis" pan b st).
Proof.
  destruct b as [samples targets].
  unfold evaluate_batch, evaluate_finish. rewrite load_detections_vis.
  unfold item0, dict_item, py_kwargs.
  repeat first
    [ apply select_top_quiet | apply measure_ap_quiet; solve [auto]
    | rewrite save_detections_vis | quiet_step ].
Qed.

(** C5.  Two calls of [evaluate], or of [viz], that differ only in
    [output_dir] are the same computation: both rebind it to vis before any
    use.  With that value line 140 leaves the model as it is and line 257
    does nothing, so no run of [evaluate] loads or saves detections. *)
Theorem output_dir_has_no_effect pp dl ds d1 d2 :
  evaluate pp dl ds d1 = evaluate pp dl ds d2 ∧
  viz dl d1 = viz dl d2 ∧
  quiet is_detection_file (evaluate pp dl ds d1) ∧
  (∀ targets (st : eval_state (F := F)),
     load_detections "vis" targets st = mret (model_lambda st)) ∧
  (∀ targets (o : outputs (F := F)), save_detections "vis" targets o = mret tt).
Proof.
  split; [reflexivity |]. split; [reflexivity |]. split; [| split].
  - unfold evaluate, evaluate_loop, load_name.
    repeat first
      [ apply evaluate_batch_quiet | quiet_step
      | match goal with
        | |- quiet _ (emit (if ?c then _ else _)) => destruct c
        end ].
  - intros. apply load_detections_vis.
  - intros. apply save_detections_vis.
Qed.

Lemma load_stats h :
  (load_name evaluate_locals evaluate_locals "stats";; mret tt) h
  = (Raise (NameError "stats"), [] : trace F).
Proof. reflexivity. Qed.

(** C2.  Whenever the loop of [evaluate] completes, the return statement
    raises NameError for stats, which no assignment, import or parameter of
    the function binds and which is neither a module global nor a builtin;
    and no run of [evaluate] returns a value. *)
Theorem evaluate_raises_name_error pp dl ds od h st t :
  evaluate_loop pp dl ds od h = (Ret st, t) →
  evaluate pp dl ds od h = (Raise (NameError "stats"), t) ∧
  resolve evaluate_locals "stats" = Unbound ∧
  ∀ pp' dl' ds' od' h' v, (evaluate pp' dl' ds' od' h').1 ≠ Ret v.
Proof.
  intros E. split; [| split].
  - unfold evaluate. rewrite (run_bind_ret _ _ _ _ _ E), load_stats.
    cbn [fst snd]. by rewrite app_nil_r.
  - reflexivity.
  - intros pp' dl' ds' od' h' v. unfold evaluate. rewrite run_bind.
    destruct (evaluate_loop pp' dl' ds' od' h') as [[st'|e|c] t']; [| done | done].
    by rewrite load_stats.
Qed.

Lemma select_top_in_order {B} (f : event F → option B) top_k o :
  in_order f (select_top top_k o) [].
Proof. apply quiet_in_order, select_top_quiet. Qed.

Lemma measure_ap_evaluator name logits t0 :
  in_order evaluator_call_of (measure_ap name logits t0) [].
Proof. apply quiet_in_order. by apply measure_ap_quiet. Qed.

Lemma measure_ap_prints name logits t0 :
  in_order printed_ap_of (measure_ap name logits t0)
           (replicate (length (remove_dups (ivals (labels t0)))) tt).
Proof.
  unfold measure_ap. eapply in_order_eq.
  - apply in_order_bind; [unfold item0; in_order_tac | intros logits0].
    apply (in_order_for_each printed_ap_of _ _ (λ _, [tt])).
    intros ind s. unfold measure_class, item, class_ap, ap_at, py_mean. in_order_tac.
  - cbn [app]. rewrite (const_fmap _ _ [tt]) by done.
    rewrite length_seq. generalize (length (remove_dups (ivals (labels t0)))).
    intros n. induction n as [|n IH]; [done |]. simpl. by f_equal.
Qed.

Lemma save_detections_in_order {B} (f : event F → option B) targets
    (o : outputs (F := F)) :
  in_order f (save_detections "vis" targets o) [].
Proof. rewrite save_detections_vis. apply in_order_ret. Qed.

#[local] Hint Resolve select_top_in_order measure_ap_evaluator measure_ap_prints
  save_detections_in_order : in_order.









(** ** evaluate: the average precisions it computes itself *)

Lemma remove_dups_length `{EqDecision A} (l : list A) :
  (length (remove_dups l) ≤ length l)%nat.
Proof. induction l as [|x l IH]; simpl; [done |]. case_decide; simpl; lia. Qed.

Lemma remove_dups_NoDup `{EqDecision A} (l : list A) : NoDup l → remove_dups l = l.
Proof.
  induction 1 as [|x l Hx _ IH]; simpl; [done |].
  case_decide as Hd; [| by rewrite IH].
  first [ done | apply elem_of_remove_dups in Hd; done ].
Qed.

Lemma ap_at_run threshold scores n h :
  ap_at threshold scores n h
  = (Ret (ap_value threshold scores), [ap_call threshold scores]).
Proof. reflexivity. Qed.

Lemma ap_at_all_run (thresholds : list F) scores n h :
  mapM (λ threshold, ap_at threshold scores n) thresholds h
  = (Ret (map (λ threshold, ap_value threshold scores) thresholds),
     map (λ threshold, ap_call threshold scores) thresholds).
Proof.
  revert h. induction thresholds as [|thr ths IH]; intros h; [done |].
  cbn [mapM map]. rewrite (run_bind_ret _ _ _ _ _ (ap_at_run _ _ _ _)).
  rewrite (run_bind_ret _ _ _ _ _ (IH _)), run_mret. cbn [fst snd].
  by rewrite app_nil_r.
Qed.

Lemma class_ap_run name cls scores n h :
  length coco_thresholds = 101%nat →
  ∃ ap t,
    class_ap name scores n h = (Ret ap, t) ∧
    t ++ [PrintAP cls ap] = class_report name cls scores.
Proof.
  intros Hlin. unfold class_ap, class_report.
  destruct scores as [|s scores]; [by eexists _, _ |].
  rewrite bool_decide_eq_true_2 by done.
  set (sorted := np_sort_descending (s :: scores)).
  rewrite (run_bind_ret _ _ _ _ _ (ap_at_run _ _ _ _)).
  fold (voc_ap (s :: scores)). fold coco_thresholds.
  assert (E : ∀ h', (if bool_decide (name ∈ image_filenames)
                     then emit (AppendFile "./ap.txt" name (voc_ap (s :: scores)))
                     else mret tt) h'
                    = (Ret tt, if bool_decide (name ∈ image_filenames)
                               then [AppendFile "./ap.txt" name (voc_ap (s :: scores))]
                               else [])).
  { intros h'. by destruct (bool_decide (name ∈ image_filenames)). }
  rewrite (run_bind_ret _ _ _ _ _ (E _)).
  rewrite (run_bind_ret _ _ _ _ _ (ap_at_all_run _ _ _ _)).
  unfold py_mean. rewrite length_map, Hlin.
  destruct (map (λ threshold, ap_value threshold sorted) coco_thresholds) eqn:Em.
  { apply (f_equal length) in Em. rewrite length_map, Hlin in Em. done. }
  rewrite <- Em. eexists _, _. split; [rewrite run_mret; reflexivity |].
  cbn [fst snd]. rewrite app_nil_r, <- !app_assoc. reflexivity.
Qed.

Lemma measure_class_run name logits0 t0 ind cls h :
  length coco_thresholds = 101%nat →
  length (ivals (labels t0)) = length (boxes t0) →
  ivals (labels t0) !! ind = Some cls →
  measure_class name logits0 t0 ind h
  = (Ret tt, class_report name cls (class_scores logits0 cls)).
Proof.
  intros Hlin Hlen Hc. unfold measure_class, item. rewrite Hc, run_ret.
  rewrite (bool_decide_eq_true_2 _ Hlen), run_ret.
  destruct (class_ap_run name cls (class_scores logits0 cls)
              (length (mask_select (map (λ c, Z.eqb c cls) (ivals (labels t0)))
                                   (boxes t0))) h Hlin) as (ap & t & E & Ht).
  rewrite (run_bind_ret _ _ _ _ _ E). by rewrite <- Ht.
Qed.

Lemma measure_loop_run name logits0 t0 m :
  length coco_thresholds = 101%nat →
  length (ivals (labels t0)) = length (boxes t0) →
  ∀ k h, (k + m ≤ length (ivals (labels t0)))%nat →
  for_each (seq k m) (λ ind _, measure_class name logits0 t0 ind) tt h
  = (Ret tt, mjoin ((λ cls, class_report name cls (class_scores logits0 cls))
                      <$> take m (drop k (ivals (labels t0))))).
Proof.
  intros Hlin Hlen. induction m as [|m IH]; intros k h Hk; [done |].
  destruct (lookup_lt_is_Some_2 (ivals (labels t0)) k) as [cls Hc]; [lia |].
  cbn [seq for_each].
  rewrite (run_bind_ret _ _ _ _ _ (measure_class_run _ _ _ _ _ _ Hlin Hlen Hc)).
  rewrite IH by lia. rewrite (drop_S _ _ _ Hc). reflexivity.
Qed.

Lemma measure_ap_run name logits0 ls t0 h :
  length coco_thresholds = 101%nat →
  length (ivals (labels t0)) = length (boxes t0) →
  measure_ap name (logits0 :: ls) t0 h
  = (Ret tt, mjoin ((λ cls, class_report name cls (class_scores logits0 cls))
                      <$> take (length (remove_dups (ivals (labels t0))))
                               (ivals (labels t0)))).
Proof.
  intros Hlin Hlen. unfold measure_ap. rewrite item0_cons, run_ret.
  rewrite (measure_loop_run _ _ _ _ Hlin Hlen 0) by (simpl; apply remove_dups_length).
  by rewrite drop_0.
Qed.

Lemma evaluate_finish_quiet pp pan targets t0 model (o : outputs) (st : eval_state) :
  quiet is_own_metric (evaluate_finish pp "vis" pan targets t0 model o st).
Proof.
  unfold evaluate_finish, py_kwargs, dict_item.
  repeat first [ rewrite save_detections_vis | quiet_step ].
Qed.

(** C4, amended.  Take a batch of [evaluate] with at least one image whose
    first target has pairwise distinct labels and one box per label, and a
    model output that has, for the first image, at least one query, at least
    two classes in every logit row, and a logit row and a box at each of the
    query indices selected; let [np.linspace(0, 1, 101)] have its 101
    values.  Then [evaluate] takes the 10 queries of the first image that
    the descending sort of the class-1 probability puts first, keeps those
    of confidence above 0.01, and for every ground-truth class in turn works
    on the kept scores of that class, sorted in descending order: it
    computes the PASCAL-VOC-style AP, where a prediction is a true positive
    when its score exceeds 0.5, then an AP at each of the 101 thresholds,
    and it prints the mean of these 101 values; for a class without kept
    scores it prints 0.  Nothing else in the batch computes or prints an
    average precision. *)
Theorem evaluate_batch_measures_ap pp pan samples t0 ts (logger : meters)
    (sizes : option (list (F * F))) h image imgs logits0 ls boxes0 bs :
  tensors samples = image :: imgs →
  pred_logits (model_forward h (Some samples)) = logits0 :: ls →
  pred_boxes (model_forward h (Some samples)) = boxes0 :: bs →
  Forall (λ row, is_Some (softmax row !! 1%nat)) logits0 →
  let indices := top_indices 10 logits0 in
  indices ≠ [] →
  Forall (λ i, is_Some (logits0 !! i) ∧ is_Some (boxes0 !! i)) indices →
  let sel_logits := omap (logits0 !!.) indices in
  NoDup (ivals (labels t0)) →
  length (ivals (labels t0)) = length (boxes t0) →
  length coco_thresholds = 101%nat →
  let name := "img_" +:+ pretty (image_id t0) +:+ ".jpg" in
  ∃ o rest,
    evaluate_batch pp "vis" pan (samples, t0 :: ts)
      {| eval_logger := logger; model_lambda := None; target_sizes := sizes |} h
    = (o, [Forward (Some samples); Gca]
          ++ mjoin ((λ cls, class_report name cls (class_scores sel_logits cls))
                      <$> ivals (labels t0))
          ++ rest) ∧
    quiet_trace is_own_metric rest.
Proof.
  intros Ht El Eb Hrow indices Hne Hidx sel_logits Hnd Hlen Hlin name.
  unfold evaluate_batch. rewrite item0_cons, run_ret, load_detections_vis, run_ret.
  cbn [model_lambda]. rewrite run_call.
  rewrite (run_bind_ret _ _ _ _ _
             (select_top_run _ _ _ _ _ _ _ El Eb Hrow Hne Hidx)).
  fold indices. fold sel_logits.
  rewrite run_emit, Ht, item0_cons, run_ret.
  rewrite (run_bind_ret _ _ _ _ _ (measure_ap_run _ _ _ _ _ Hlin Hlen)).
  rewrite (remove_dups_NoDup _ Hnd), firstn_all.
  eexists _, _. split.
  - cbn [fst snd app]. reflexivity.
  - apply evaluate_finish_quiet.
Qed.


(** * Further properties of the loops *)

(** ** train_one_epoch: the operations of a whole epoch *)

Lemma train_loop_order sw dl epoch mn :
  in_order op_of (train_loop sw dl epoch mn)
           (mjoin (replicate (length dl) batch_order)).
Proof.
  unfold train_loop.
  eapply in_order_eq.
  - repeat (apply in_order_bind; [in_order_step | intros ?]).
    apply (in_order_for_each _ _ _ (λ _, batch_order)).
    intros ? ?. apply train_batch_order.
  - simpl. f_equal. rewrite (const_fmap _ _ batch_order) by done.
    by rewrite length_seq.
Qed.

(** X1.  Over a whole epoch the gradient operations come batch after
    batch: the forward pass, criterion, finiteness check, gradient zeroing,
    backward pass, gradient-norm call and optimizer step of the first batch,
    then those of the second, and so on.  An epoch that returns has done the
    seven operations exactly [len(data_loader)] times; one that stops early
    has done a prefix of that sequence. *)
Theorem train_epoch_operations sw dl epoch mn :
  in_order op_of (train_one_epoch sw dl epoch mn)
           (mjoin (replicate (length dl) batch_order)).
Proof.
  unfold train_one_epoch. eapply in_order_eq.
  - apply in_order_bind; [apply train_loop_order | intros st].
    repeat (apply in_order_bind; [in_order_step | intros ?]). in_order_step.
  - by rewrite app_nil_r.
Qed.

(** ** train_one_epoch: the loss meter *)

Lemma meter_update_lookup_ne name name' v (m : meters) :
  name ≠ name' → meter_update name v m !! name' = m !! name'.
Proof. intros Hn. unfold meter_update. by rewrite lookup_insert_ne. Qed.

Lemma meter_update_lookup name v (m : meters) :
  meter_update name v m !! name = Some (default [] (m !! name) ++ [v]).
Proof. unfold meter_update. by rewrite lookup_insert_eq. Qed.

Lemma logger_update_lookup_notin kw (m : meters) name :
  name ∉ kw.*1 → logger_update kw m !! name = m !! name.
Proof.
  unfold logger_update. revert m. induction kw as [|[k v] kw IH]; intros m Hn; [done |].
  rewrite fmap_cons, not_elem_of_cons in Hn. destruct Hn as [Hk Hn]. simpl.
  rewrite IH by done. by apply meter_update_lookup_ne.
Qed.

Lemma apply_swav_quiet P sw targets :
  P SwavForward = false → quiet P (apply_swav sw targets).
Proof.
  intros HP. unfold apply_swav.
  repeat first [ apply quiet_call; exact HP | quiet_step ].
Qed.

Lemma quiet_omap_run {A B} (f : event F → option B) (m : M F A) h o t :
  quiet (λ e, bool_decide (is_Some (f e))) m → m h = (o, t) → omap f t = [].
Proof. intros Hq E. apply quiet_omap_nil. specialize (Hq h). by rewrite E in Hq. Qed.

Lemma logger_update_lookup_head name v kw (m : meters) :
  name ∉ kw.*1 →
  logger_update ((name, v) :: kw) m !! name = Some (default [] (m !! name) ++ [v]).
Proof.
  intros Hn. change (logger_update ((name, v) :: kw) m)
    with (logger_update kw (meter_update name v m)).
  rewrite logger_update_lookup_notin by done. apply meter_update_lookup.
Qed.

Lemma train_batch_loss_meter sw mn st h st' t :
  train_batch sw mn st h = (Ret st', t) →
  ∃ v, omap finite_check_of t = [v] ∧
       metric_logger st' !! "loss"
       = Some (default [] (metric_logger st !! "loss") ++ [v]).
Proof.
  unfold train_batch, train_forward, check_finite, train_step, tensor_item,
    backward, grad_norm_step, py_kwargs, dict_item.
  intros E. run_inv.
  all: cbn [loss_value losses loss_dict_reduced loss_dict_reduced_scaled
            loss_dict_reduced_unscaled metric_logger] in *.
  all: match goal with
       | H : apply_swav _ _ _ = _ |- _ =>
           apply (quiet_omap_run finite_check_of) in H;
             [| by apply apply_swav_quiet];
           eexists; split; [rewrite !omap_app, H; reflexivity |]
       end.
  all: match goal with
       | H : bool_decide (NoDup _) = true |- _ =>
           apply bool_decide_eq_true in H; rewrite fmap_cons in H;
           apply NoDup_cons in H as [Hl _]
       end.
  all: rewrite !meter_update_lookup_ne by done.
  all: by apply logger_update_lookup_head.
Qed.
Lemma train_loop_loss_meter sw dl epoch mn h st t :
  train_loop sw dl epoch mn h = (Ret st, t) →
  length (omap finite_check_of t) = length dl ∧
  metric_logger st !! "loss"
  = match dl with [] => None | _ => Some (omap finite_check_of t) end.
Proof.
  unfold train_loop. intros E. run_inv.
  apply (for_each_ret_inv _ _
           (λ n s acc, length (omap finite_check_of acc) = n ∧
                       metric_logger s !! "loss"
                       = match n with
                         | O => None
                         | _ => Some (omap finite_check_of acc)
                         end)) in E.
  - rewrite length_seq in E. destruct E as [E1 E2]. split; [exact E1 |].
    cbn [app omap list_omap finite_check_of]. rewrite E2. by destruct dl.
  - intros a s h' s1 t1 n acc [I1 I2] Eb.
    apply train_batch_loss_meter in Eb as (v & Ev & El).
    rewrite omap_app, Ev, length_app, I1. split; [simpl; lia |].
    rewrite El, I2. destruct n as [|n]; [| done].
    by destruct (omap finite_check_of acc).
  - done.
Qed.

(** X2.  When an epoch over a non-empty loader returns, the finiteness
    check has been made once per batch, and the 'loss' entry of the returned
    dictionary is the global average over exactly the checked loss values,
    in batch order. *)
Theorem train_loss_average sw dl epoch mn h d t :
  train_one_epoch sw dl epoch mn h = (Ret d, t) →
  dl ≠ [] →
  length (omap finite_check_of t) = length dl ∧
  d !! "loss" = Some (global_avg (h ++ t) (omap finite_check_of t)).
Proof.
  unfold train_one_epoch. intros E Hdl. run_inv.
  apply train_loop_loss_meter in E0 as [E1 E2].
  rewrite !omap_app. cbn [omap list_omap finite_check_of]. rewrite !app_nil_r.
  split; [exact E1 |]. rewrite lookup_fmap, E2.
  destruct dl; [done |]. cbn [fmap option_fmap option_map].
  by rewrite <- !app_assoc.
Qed.
(** ** train_one_epoch: errors inside an iteration *)

Lemma scale_nil (weight_dict d : dict) :
  (∀ k, k ∈ d.*1 → dict_get weight_dict k = None) → scale weight_dict d = [].
Proof.
  unfold scale. induction d as [|[k v] d IH]; intros Hk; [done |].
  cbn [omap list_omap]. rewrite Hk by (rewrite fmap_cons; left).
  simpl. apply IH. intros k' Hk'. apply Hk. rewrite fmap_cons. by right.
Qed.

Lemma train_forward_no_check sw st :
  quiet (λ e, is_update e || bool_decide (is_Some (finite_check_of e)))
        (train_forward sw st).
Proof. unfold train_forward, apply_swav, tensor_item. quiet_tac. Qed.

(** X3.  When no reduced loss has a weight, the sum of line 69 is the
    int 0 and line 71 raises AttributeError on its [.item()]: the iteration
    ends before the finiteness check and before any gradient operation. *)
Theorem train_no_weighted_loss sw mn st h :
  (sw = None ∨ is_Some (fetched st)) →
  (∀ h1 h2 d k, k ∈ (reduce_dict h2 d).*1 →
                dict_get (criterion_weight_dict h1) k = None) →
  ∃ t,
    train_batch sw mn st h = (Raise (AttributeError "item"), t) ∧
    quiet_trace (λ e, is_update e || bool_decide (is_Some (finite_check_of e))) t.
Proof.
  intros Hsw Hw.
  assert (Hf : ∃ t, train_forward sw st h = (Raise (AttributeError "item"), t)).
  { unfold train_forward. cbv zeta. rewrite run_call.
    destruct (apply_swav_returns sw (snd <$> fetched st)
                (h ++ [Forward (fst <$> fetched st)])) as (ts & tsw & E & _).
    { destruct Hsw as [-> | [b ->]]; [by left | right; by eexists]. }
    rewrite (run_bind_ret _ _ _ _ _ E), run_call, run_ask, run_call.
    rewrite (scale_nil _ _ (Hw _ _ _)). cbn [fmap list_fmap py_sum tensor_item].
    rewrite run_raise. simpl. eauto. }
  destruct Hf as [t Ht]. exists t. split.
  - unfold train_batch. by rewrite (run_bind_raise _ _ _ _ _ Ht).
  - pose proof (train_forward_no_check sw st h) as Hq. by rewrite Ht in Hq.
Qed.
(** X4.  When the reduced loss dictionary has no class_error entry,
    line 87 raises KeyError, and it does so only after the finiteness check,
    the backward pass, the gradient-norm call and the optimizer step of the
    batch: the parameters have been updated when the error surfaces. *)
Theorem train_missing_class_error sw mn st h x t1 v :
  train_forward sw st h = (Ret x, t1) →
  isfinite (loss_value x) = true →
  losses x = PyFloat v →
  NoDup ("loss" :: (loss_dict_reduced_scaled x).*1
                     ++ (loss_dict_reduced_unscaled x).*1) →
  dict_get (loss_dict_reduced x) "class_error" = None →
  train_batch sw mn st h
  = (Raise (KeyError "class_error"),
     t1 ++ [ MathIsfinite (loss_value x); ZeroGrad; Backward v;
             if fgt mn (of_Z 0) then ClipGradNorm mn else GetTotalGradNorm mn;
             OptimizerStep ]).
Proof.
  intros E Hfin Hl Hnd Hce. unfold train_batch.
  rewrite (run_bind_ret _ _ _ _ _ E).
  rewrite (run_bind_ret _ _ _ _ _ (check_finite_pass _ _ _ Hfin)).
  unfold train_step. rewrite run_emit. rewrite Hl. unfold backward.
  rewrite run_emit. unfold grad_norm_step, py_kwargs, dict_item.
  rewrite bool_decide_eq_true_2 by (by rewrite fmap_cons, fmap_app).
  rewrite Hce.
  destruct (fgt mn (of_Z 0)); rewrite run_call, run_emit, run_ret, run_raise.
  all: reflexivity.
Qed.

(** X5.  A reduced loss that is itself named loss and has a weight
    clashes with the keyword [loss=loss_value] of line 86: the call raises
    TypeError, again only after the optimizer step of the batch. *)
Theorem train_loss_keyword_clash sw mn st h x t1 v :
  train_forward sw st h = (Ret x, t1) →
  isfinite (loss_value x) = true →
  losses x = PyFloat v →
  "loss" ∈ (loss_dict_reduced_scaled x).*1 →
  train_batch sw mn st h
  = (Raise (TypeError "got multiple values for keyword argument"),
     t1 ++ [ MathIsfinite (loss_value x); ZeroGrad; Backward v;
             if fgt mn (of_Z 0) then ClipGradNorm mn else GetTotalGradNorm mn;
             OptimizerStep ]).
Proof.
  intros E Hfin Hl Hin. unfold train_batch.
  rewrite (run_bind_ret _ _ _ _ _ E).
  rewrite (run_bind_ret _ _ _ _ _ (check_finite_pass _ _ _ Hfin)).
  unfold train_step. rewrite run_emit. rewrite Hl. unfold backward.
  rewrite run_emit. unfold grad_norm_step, py_kwargs.
  rewrite bool_decide_eq_false_2.
  2:{ rewrite fmap_cons, fmap_app. intros Hnd. apply NoDup_cons in Hnd as [Hn _].
      apply Hn. apply elem_of_app. by left. }
  destruct (fgt mn (of_Z 0)); rewrite run_call, run_emit, run_raise.
  all: reflexivity.
Qed.

(** ** train_one_epoch: the swav model *)

Lemma swav_loop_run (sw : swav) (ts : list target) h :
  ∃ ts',
    mapM (λ elem,
            p ← call SwavForward (λ h, sw h (patches elem));
            mret {| boxes := boxes elem; labels := labels elem;
                    image_id := image_id elem; orig_size := orig_size elem;
                    size := size elem; patches := p |}) ts h
    = (Ret ts', replicate (length ts) SwavForward) ∧
    Forall2 same_but_patches ts ts'.
Proof.
  revert h. induction ts as [|a ts IH]; intros h.
  - exists []. split; [done | constructor].
  - destruct (IH (h ++ [SwavForward])) as (ts' & E & Hts).
    eexists (_ :: ts'). split.
    + cbn [mapM]. rewrite run_bind, run_call, run_mret. cbn [fst snd].
      rewrite ?app_nil_r, (run_bind_ret _ _ _ _ _ E), run_mret.
      cbn [fst snd length replicate app]. by rewrite ?app_nil_r.
    + constructor; [done | exact Hts].
Qed.

(** X6.  With a swav model, lines 55-58 call it once per target of the
    batch and change nothing of a target but its patches: boxes, labels,
    image id and sizes reach the criterion unchanged.  Without one the
    targets are passed on as they are and the swav model is never called.
    With one and an exhausted prefetcher, iterating over [None] raises
    TypeError. *)
Theorem swav_replaces_patches_only (sw : swav) (ts : list target)
    (targets : option (list target)) h :
  (∃ ts', apply_swav (Some sw) (Some ts) h
          = (Ret (Some ts'), replicate (length ts) SwavForward) ∧
          Forall2 same_but_patches ts ts') ∧
  apply_swav None targets h = (Ret targets, []) ∧
  apply_swav (Some sw) None h
  = (Raise (TypeError "'NoneType' object is not iterable"), []).
Proof.
  split; [| split; reflexivity].
  destruct (swav_loop_run sw ts h) as (ts' & E & Hts).
  exists ts'. split; [| done]. unfold apply_swav.
  rewrite (run_bind_ret _ _ _ _ _ E), run_mret. cbn [fst snd]. by rewrite app_nil_r.
Qed.
(** ** evaluate and viz: what they never do *)

Lemma measure_ap_in_order {B} (f : event F → option B) name logits t0 :
  (∀ y s, f (AveragePrecisionScore y s) = None) →
  (∀ p n v, f (AppendFile p n v) = None) →
  (∀ c v, f (PrintAP c v) = None) →
  in_order f (measure_ap name logits t0) [].
Proof.
  intros H1 H2 H3. apply quiet_in_order. apply measure_ap_quiet; intros.
  - rewrite H1. by apply bool_decide_eq_false_2, is_Some_None.
  - rewrite H2. by apply bool_decide_eq_false_2, is_Some_None.
  - rewrite H3. by apply bool_decide_eq_false_2, is_Some_None.
Qed.

Lemma evaluate_batch_savefig pp pan b (st : eval_state) :
  in_order savefig_of (evaluate_batch pp "vis" pan b st) (figure_of b).
Proof.
  destruct b as [samples [|t0 ts]]; unfold evaluate_batch, evaluate_finish, figure_of;
    cbn [snd].
  - apply in_order_raise_bind.
  - rewrite item0_cons, load_detections_vis.
    apply in_order_ret_bind, in_order_ret_bind.
    unfold item0, dict_item, py_kwargs.
    eapply in_order_eq.
    + repeat first [ apply measure_ap_in_order; done | in_order_step ].
    + reflexivity.
Qed.

Lemma evaluate_batch_undrawn pp pan b (st : eval_state) :
  quiet (λ e, is_drawing e || is_training e) (evaluate_batch pp "vis" pan b st).
Proof.
  destruct b as [samples targets].
  unfold evaluate_batch, evaluate_finish. rewrite load_detections_vis.
  unfold item0, dict_item, py_kwargs.
  repeat first
    [ apply select_top_quiet | apply measure_ap_quiet; solve [auto]
    | rewrite save_detections_vis | quiet_step ].
Qed.

Lemma evaluate_loop_savefig pp dl ds od :
  in_order savefig_of (evaluate_loop pp dl ds od) (mjoin (figure_of <$> dl)).
Proof.
  unfold evaluate_loop. eapply in_order_eq.
  - repeat (apply in_order_bind; [| intros ?]).
    1-2: in_order_step.
    + eapply in_order_eq; [apply in_order_emit | reflexivity].
    + repeat in_order_step.
    + apply (in_order_for_each savefig_of dl _ figure_of).
      intros b s. apply evaluate_batch_savefig.
  - by destruct (contains "COCO" ds).
Qed.

(** X7.  [evaluate] saves one figure per batch, vis/img_<image id of the
    first target>.jpg, in loader order: a run whose loop completes (and which
    then ends in the NameError of its return statement) has saved exactly
    these figures, a run that stops earlier a prefix of them.  It draws
    nothing on the axes: the calls of [plot_result] are commented out, and
    no run calls imshow, add_patch or text.  Nor does a run call
    [model.train()] or touch gradients or parameters. *)
Theorem evaluate_saves_undrawn_figures pp dl ds od :
  (∀ h st t,
     evaluate_loop pp dl ds od h = (Ret st, t) →
     evaluate pp dl ds od h = (Raise (NameError "stats"), t) ∧
     omap savefig_of t = mjoin (figure_of <$> dl)) ∧
  in_order savefig_of (evaluate_loop pp dl ds od) (mjoin (figure_of <$> dl)) ∧
  in_order savefig_of (evaluate pp dl ds od) (mjoin (figure_of <$> dl)) ∧
  quiet (λ e, is_drawing e || is_training e) (evaluate pp dl ds od).
Proof.
  split; [| split; [apply evaluate_loop_savefig | split]].
  - intros h st t E. split.
    + unfold evaluate. rewrite (run_bind_ret _ _ _ _ _ E), load_stats.
      cbn [fst snd]. by rewrite app_nil_r.
    + destruct (evaluate_loop_savefig pp dl ds od h) as [_ Hr].
      rewrite E in Hr. by apply (Hr st).
  - unfold evaluate, load_name. eapply in_order_eq.
    + apply in_order_bind; [apply evaluate_loop_savefig |].
      intros ?; repeat in_order_step.
    + by rewrite app_nil_r.
  - unfold evaluate, evaluate_loop, load_name.
    repeat first
      [ apply evaluate_batch_undrawn | quiet_step
      | match goal with
        | |- quiet _ (emit (if ?c then _ else _)) => destruct c
        end ].
Qed.
(** X8.  [viz] is handed the criterion, the postprocessors and the
    dataset, but all it does with them is [criterion.eval()]: no run computes
    a loss, builds or updates an evaluator, calls a postprocessor or measures
    an average precision, and no run trains. *)
Theorem viz_only_draws dl od :
  quiet (λ e, is_training e || is_scoring e) (viz dl od).
Proof.
  unfold viz, viz_batch, item0.
  repeat first
    [ apply select_top_quiet | apply plot_result_quiet; solve [auto] | quiet_step ].
Qed.

Lemma class_ap_listed name scores n :
  quiet is_unlisted_write (class_ap name scores n).
Proof.
  unfold class_ap, ap_at, py_mean.
  repeat first
    [ match goal with
      | |- quiet _ (if bool_decide (name ∈ image_filenames) then _ else _) =>
          case_bool_decide as Hn;
            [apply quiet_emit; cbn [is_unlisted_write];
             by rewrite bool_decide_eq_true_2 | apply quiet_ret]
      end
    | quiet_step ].
Qed.

Lemma evaluate_batch_listed pp pan b (st : eval_state) :
  quiet is_unlisted_write (evaluate_batch pp "vis" pan b st).
Proof.
  destruct b as [samples targets].
  unfold evaluate_batch, evaluate_finish, measure_ap, measure_class.
  rewrite load_detections_vis.
  unfold item0, item, dict_item, py_kwargs.
  repeat first
    [ apply select_top_quiet | apply class_ap_listed
    | rewrite save_detections_vis | quiet_step ].
Qed.

(** X9.  The only file [evaluate] writes average precisions to is
    ./ap.txt, and it does so only for a batch whose figure name is one of the
    six names listed in lines 129-136. *)
Theorem evaluate_writes_listed_images pp dl ds od :
  quiet is_unlisted_write (evaluate pp dl ds od).
Proof.
  unfold evaluate, evaluate_loop, load_name.
  repeat first
    [ apply evaluate_batch_listed | quiet_step
    | match goal with
      | |- quiet _ (emit (if ?c then _ else _)) => destruct c
      end ].
Qed.
(** ** evaluate: what the average precisions depend on *)

(** X10.  The average precisions that [evaluate] measures for a batch
    depend on the first target only through its labels: [recall], the one
    value computed from the ground-truth boxes, is never read.  Two targets
    with the same labels, each with one box per label, give the same calls,
    prints and outcome whatever the boxes are. *)
Theorem measure_ap_ignores_boxes name logits (t0 t0' : target) :
  length (boxes t0) = length (ivals (labels t0)) →
  length (boxes t0') = length (ivals (labels t0')) →
  labels t0' = labels t0 →
  measure_ap name logits t0' = measure_ap name logits t0.
Proof.
  intros H1 H2 Hl. unfold measure_ap, measure_class. rewrite Hl in H2 |- *.
  rewrite (bool_decide_eq_true_2 _ (eq_sym H1)), (bool_decide_eq_true_2 _ (eq_sym H2)).
  reflexivity.
Qed.
(** ** evaluate: the postprocessors it needs *)

Lemma quiet_raise_bind P {A B} e (k : A → M F B) : quiet P (raise e ≫= k).
Proof. intros h. rewrite run_raise. constructor. Qed.

Lemma quiet_ret_bind P {A B} (a : A) (k : A → M F B) :
  quiet P (k a) → quiet P (mret a ≫= k).
Proof. intros Hk h. rewrite run_ret. apply Hk. Qed.

Lemma evaluate_finish_needs_bbox pp od pan targets t0 model (o : outputs)
    (st : eval_state) :
  "bbox" ∉ pp →
  quiet is_after_bbox (evaluate_finish pp od pan targets t0 model o st).
Proof.
  intros Hb. unfold evaluate_finish, dict_item, py_kwargs.
  rewrite (bool_decide_eq_false_2 _ Hb).
  repeat first [ apply quiet_raise_bind | quiet_step ].
Qed.

(** X11.  Without a postprocessor for bbox no batch gets past line 255:
    [evaluate] never calls a postprocessor and never updates the evaluator
    it has constructed, nor the panoptic one. *)
Theorem evaluate_needs_bbox pp dl ds od :
  "bbox" ∉ pp → quiet is_after_bbox (evaluate pp dl ds od).
Proof.
  intros Hb. unfold evaluate, evaluate_loop, load_name, evaluate_batch.
  repeat first
    [ apply evaluate_finish_needs_bbox; exact Hb
    | apply select_top_quiet | apply measure_ap_quiet; solve [auto]
    | rewrite load_detections_vis
    | match goal with
      | |- quiet _ (emit (if ?c then _ else _)) => destruct c
      | |- quiet _ (item0 _) => unfold item0
      end
    | quiet_step ].
Qed.
Lemma raises_after_quiet P e {A} (m : M F A) : quiet P m → raises_after P e m.
Proof. intros Hq h. left. apply Hq. Qed.

Lemma raises_after_bind P e {A B} (m : M F A) (k : A → M F B) (Q : A → Prop) :
  raises_after P e m →
  (∀ h a t, m h = (Ret a, t) → Q a) →
  (∀ a, Q a → raises_after P e (k a)) →
  raises_after P e (m ≫= k).
Proof.
  intros Hm HQ Hk h. rewrite run_bind. specialize (Hm h). specialize (HQ h).
  destruct (m h) as [[a|e'|c] t1]; simpl in *.
  2:{ destruct Hm as [Hm | [= ->]]; [by left | by right]. }
  2:{ destruct Hm as [Hm | Hm]; [by left | done]. }
  destruct Hm as [Hm | Hm]; [| done].
  destruct (Hk a (HQ a t1 eq_refl) (h ++ t1)) as [Hq | Hr]; [left | by right].
  apply Forall_app. by split.
Qed.

Lemma raises_after_for_each P e {A St} (xs : list A) (body : A → St → M F St)
    (I : St → Prop) st :
  I st →
  (∀ a s, I s → raises_after P e (body a s)) →
  (∀ a s h s' t, I s → body a s h = (Ret s', t) → I s') →
  raises_after P e (for_each xs body st).
Proof.
  intros Hst Hb Hi. revert st Hst. induction xs as [|a xs IH]; intros st Hst; simpl.
  - apply raises_after_quiet, quiet_ret.
  - apply (raises_after_bind _ _ _ _ I); [by apply Hb | | intros s Hs; by apply IH].
    intros h s' t E. by apply (Hi a st h s' t).
Qed.

Lemma raises_after_ret_bind P e {A B} (a : A) (k : A → M F B) :
  raises_after P e (k a) → raises_after P e (mret a ≫= k).
Proof. intros Hk h. rewrite run_ret. apply Hk. Qed.

Lemma raises_after_emit P e {B} ev (k : unit → M F B) :
  (∀ h, (k tt h).1 = Raise e) → raises_after P e (emit ev ≫= k).
Proof. intros Hk h. right. rewrite run_emit. apply Hk. Qed.

Lemma save_detections_quiet P od targets (o : outputs (F := F)) :
  (∀ path, P (Makedirs path) = false) → (∀ path, P (TorchSave path) = false) →
  quiet P (save_detections od targets o).
Proof.
  intros H1 H2. unfold save_detections, item.
  repeat first
    [ apply quiet_emit; solve [auto]
    | match goal with
      | |- quiet _ ((let '(_, _) := ?x in _) _) => destruct x
      end
    | quiet_step ].
Qed.

Ltac raises_after_step :=
  first
    [ apply raises_after_quiet;
      first [ apply quiet_emit; reflexivity | apply quiet_call; reflexivity
            | apply quiet_ask | apply quiet_raise | apply quiet_ret
            | apply save_detections_quiet; reflexivity ]
    | apply raises_after_ret_bind; cbv beta iota
    | match goal with
      | |- raises_after _ _ (emit (EvaluatorUpdate _) ≫= _) =>
          apply raises_after_emit; intros ?; rewrite run_raise; reflexivity
      | |- raises_after _ _ (mbind _ _) =>
          apply (raises_after_bind _ _ _ _ (λ _, True)); [| done | intros ? _]
      | |- raises_after _ _ (match ?x with _ => _ end) => destruct x
      end ].

Lemma evaluate_finish_needs_segm pp od targets t0 model (o : outputs)
    (st : eval_state) :
  "segm" ∉ pp → target_sizes st = None →
  raises_after is_evaluator_update (UnboundLocalError "target_sizes")
               (evaluate_finish pp od true targets t0 model o st).
Proof.
  intros Hs Hst. unfold evaluate_finish, dict_item, py_kwargs.
  rewrite (bool_decide_eq_false_2 _ Hs), Hst.
  repeat raises_after_step.
Qed.
Lemma evaluate_batch_needs_segm pp od b (st : eval_state) h s' t :
  "segm" ∉ pp → target_sizes st = None →
  evaluate_batch pp od true b st h ≠ (Ret s', t).
Proof.
  intros Hs Hst E. destruct b as [samples targets].
  unfold evaluate_batch, evaluate_finish, dict_item, py_kwargs in E.
  rewrite (bool_decide_eq_false_2 _ Hs), Hst in E.
  run_inv.
Qed.
Lemma quiet_bind_val P {A B} (m : M F A) (k : A → M F B) (Q : A → Prop) :
  quiet P m →
  (∀ h a t, m h = (Ret a, t) → Q a) →
  (∀ a, Q a → quiet P (k a)) →
  quiet P (m ≫= k).
Proof.
  intros Hm HQ Hk h. rewrite run_bind. specialize (Hm h). specialize (HQ h).
  destruct (m h) as [[a|e'|c] t1]; simpl in *; [| done | done].
  apply Forall_app. split; [done |]. by apply Hk, (HQ a t1).
Qed.

Lemma quiet_for_each_inv P {A St} (xs : list A) (body : A → St → M F St)
    (I : St → Prop) st :
  I st →
  (∀ a s, I s → quiet P (body a s)) →
  (∀ a s h s' t, I s → body a s h = (Ret s', t) → I s') →
  quiet P (for_each xs body st).
Proof.
  intros Hst Hb Hi. revert st Hst. induction xs as [|a xs IH]; intros st Hst; simpl.
  - apply quiet_ret.
  - apply (quiet_bind_val _ _ _ I); [by apply Hb | | intros s Hs; by apply IH].
    intros h s' t E. by apply (Hi a st h s' t).
Qed.

Lemma evaluate_batch_update_raises pp od b (st : eval_state) :
  "segm" ∉ pp → target_sizes st = None →
  raises_after is_evaluator_update (UnboundLocalError "target_sizes")
               (evaluate_batch pp od true b st).
Proof.
  intros Hs Hst. destruct b as [samples targets]. unfold evaluate_batch.
  repeat first
    [ apply evaluate_finish_needs_segm; [exact Hs | exact Hst]
    | apply raises_after_quiet;
      first [ apply select_top_quiet | apply measure_ap_quiet; solve [auto]
            | unfold item0, load_detections; quiet_tac; fail ]
    | raises_after_step ].
Qed.

Lemma evaluate_batch_no_panoptic pp od b (st : eval_state) :
  "segm" ∉ pp → target_sizes st = None →
  quiet is_panoptic_use (evaluate_batch pp od true b st).
Proof.
  intros Hs Hst. destruct b as [samples targets].
  unfold evaluate_batch, evaluate_finish, dict_item, py_kwargs.
  rewrite (bool_decide_eq_false_2 _ Hs), Hst.
  repeat first
    [ apply select_top_quiet | apply measure_ap_quiet; solve [auto]
    | apply save_detections_quiet; reflexivity
    | apply quiet_raise_bind
    | apply quiet_ret_bind; cbv beta iota
    | match goal with
      | |- quiet _ (load_detections _ _ _) => unfold load_detections
      | |- quiet _ (item0 _) => unfold item0
      end
    | quiet_step ].
Qed.

(** X12.  With a panoptic postprocessor but none for segm, line 276
    reads [target_sizes], which only line 269 assigns: the first batch that
    gets as far as the evaluator update ends in UnboundLocalError right
    after it, so no batch completes, and neither the panoptic postprocessor
    nor the panoptic evaluator's update is ever called. *)
Theorem evaluate_panoptic_needs_segm pp dl ds od :
  "panoptic" ∈ pp → "segm" ∉ pp →
  raises_after is_evaluator_update (UnboundLocalError "target_sizes")
               (evaluate pp dl ds od) ∧
  quiet is_panoptic_use (evaluate pp dl ds od).
Proof.
  intros Hp Hs. split; unfold evaluate, evaluate_loop, load_name.
  - rewrite (bool_decide_eq_true_2 _ Hp).
    apply (raises_after_bind _ _ _ _ (λ _, True)); [| done |].
    2:{ intros st _. apply raises_after_quiet. quiet_tac. }
    do 2 (apply (raises_after_bind _ _ _ _ (λ _, True));
          [apply raises_after_quiet; quiet_tac | done | intros ? _]).
    apply (raises_after_bind _ _ _ _ (λ _, True));
      [apply raises_after_quiet; destruct (contains "COCO" ds); quiet_tac
      | done | intros ? _].
    apply (raises_after_bind _ _ _ _ (λ pan, pan = true)).
    + apply raises_after_quiet. quiet_tac.
    + intros h pan t E. by run_inv.
    + intros pan ->.
      apply (raises_after_for_each _ _ _ _ (λ s, target_sizes s = None)); [done | |].
      * intros b s Hst. by apply evaluate_batch_update_raises.
      * intros b s h s' t Hst E. by apply evaluate_batch_needs_segm in E.
  - rewrite (bool_decide_eq_true_2 _ Hp).
    apply quiet_bind; [| intros ?; quiet_tac].
    do 2 (apply quiet_bind; [quiet_tac | intros ?]).
    apply quiet_bind; [destruct (contains "COCO" ds); quiet_tac | intros ?].
    apply (quiet_bind_val _ _ _ (λ pan, pan = true)).
    + quiet_tac.
    + intros h pan t E. by run_inv.
    + intros pan ->.
      apply (quiet_for_each_inv _ _ _ (λ s, target_sizes s = None)); [done | |].
      * intros b s Hst. by apply evaluate_batch_no_panoptic.
      * intros b s h s' t Hst E. by apply evaluate_batch_needs_segm in E.
Qed.
(** ** evaluate: the results given to the evaluator *)

Lemma results_dom (targets : list (target (F := F)))
    (results : list (detection (F := F))) (m : gmap Z detection) :
  dom (foldl (λ (m : gmap Z detection) (tr : target * detection),
                <[image_id tr.1 := tr.2]> m) m (zip targets results))
  ⊆ dom m ∪ list_to_set (image_id <$> targets).
Proof.
  revert results m. induction targets as [|t ts IH]; intros results m.
  - simpl. set_solver.
  - destruct results as [|r rs]; [simpl; set_solver |].
    cbn [zip zip_with foldl fst snd]. etrans; [apply IH |].
    rewrite dom_insert, fmap_cons. cbn [list_to_set]. set_solver.
Qed.

(** X13.  The dictionary handed to the evaluator's update is keyed by
    image ids of the batch's own targets: no run of a batch passes the
    evaluator a result under any other id. *)
Theorem evaluator_update_keys pp od pan samples targets (st : eval_state) :
  quiet (is_foreign_update targets) (evaluate_batch pp od pan (samples, targets) st).
Proof.
  unfold evaluate_batch, evaluate_finish, dict_item, py_kwargs.
  repeat first
    [ apply select_top_quiet | apply measure_ap_quiet; solve [auto]
    | apply save_detections_quiet; reflexivity
    | match goal with
      | |- quiet _ (load_detections _ _ _) => unfold load_detections
      | |- quiet _ (item0 _) => unfold item0
      | |- quiet _ (emit (EvaluatorUpdate _)) =>
          apply quiet_emit; cbn [is_foreign_update];
          rewrite bool_decide_eq_true_2; [done |];
          etrans; [apply results_dom |]; rewrite dom_empty_L; set_solver
      end
    | quiet_step ].
Qed.
(** ** evaluate and viz: a batch without targets *)

(** X14.  A first batch whose list of targets is empty ends both loops
    at their first read of [targets[0]] (lines 138 and 393) with IndexError:
    the modules have been put in evaluation mode and, in [evaluate], the
    evaluators constructed, but the model has not been run. *)
Theorem empty_targets_index_error pp (dl : list batch) ds od samples h :
  viz ((samples, []) :: dl) od h = (Raise IndexError, [ModelEval; CriterionEval]) ∧
  evaluate pp ((samples, []) :: dl) ds od h
  = (Raise IndexError,
     [ ModelEval; CriterionEval;
       (if contains "COCO" ds then NewCocoEvaluator else NewVocEvaluator)
         (filter (λ k, k ∈ pp) ["segm"; "bbox"]) ]
     ++ (if bool_decide ("panoptic" ∈ pp)
         then [NewPanopticEvaluator "vis/panoptic_eval"] else [])).
Proof.
  split; [reflexivity |].
  unfold evaluate, evaluate_loop. cbn [for_each].
  destruct (contains "COCO" ds); case_bool_decide; reflexivity.
Qed.
(** ** The selection of the top queries *)

Lemma mapM_ret_inv {A B} (k : A → M F B) (xs : list A) h ys t :
  mapM k xs h = (Ret ys, t) →
  Forall2 (λ x y, ∃ h' t', k x h' = (Ret y, t')) xs ys.
Proof.
  revert h ys t. induction xs as [|x xs IH]; intros h ys t E; cbn [mapM] in E.
  - apply mret_ret_inv in E as [-> _]. constructor.
  - run_inv. constructor; eauto.
Qed.

Lemma item_ret_inv {A} (l : list A) i h x t :
  item l i h = (Ret x, t) → l !! i = Some x.
Proof. unfold item. destruct (l !! i); [| done]. by intros [= ->]. Qed.

Lemma item0_ret_inv {A} (l : list A) h x t :
  item0 l h = (Ret x, t) → ∃ l', l = x :: l'.
Proof. destruct l as [|y l]; [done |]. intros [= ->]. eauto. Qed.

Lemma silent_trace (t : trace F) : quiet_trace (λ _, true) t → t = [].
Proof. by destruct 1. Qed.

Lemma class1_ret_inv (logits0 : list (list F)) h ys t :
  mapM (λ row, item (softmax row) 1) logits0 h = (Ret ys, t) →
  ys = class1 logits0.
Proof.
  intros E. apply mapM_ret_inv in E. unfold class1.
  induction E as [|row y rows ys (h' & t' & Ey) _ IH]; [done |].
  cbn [omap list_omap]. apply item_ret_inv in Ey. rewrite Ey. simpl. by f_equal.
Qed.

Lemma rows_ret_inv {A} (rows : list (list A)) (idx : list nat) h ys t :
  mapM (λ i, l0 ← item0 rows; item l0 i) idx h = (Ret ys, t) →
  ys = [] ∨ ∃ l0 rows', rows = l0 :: rows' ∧ Forall2 (λ i y, l0 !! i = Some y) idx ys.
Proof.
  intros E. apply mapM_ret_inv in E. destruct rows as [|l0 rows'].
  - left. destruct E as [|i y idx ys (h' & t' & Hy) _]; [done | discriminate Hy].
  - right. exists l0, rows'. split; [done |].
    eapply Forall2_impl; [exact E |]. intros i y (h' & t' & Hy).
    rewrite item0_cons, run_ret in Hy. by apply item_ret_inv in Hy.
Qed.

(** X15.  When the selection of lines 153-155 (and 396-398) returns, it
    has made no call, and the boxes and the logit rows it returns are
    aligned: both are read, entry by entry, at the same query indices of the
    model's output for the first image, namely the first [top_k] indices of
    the descending sort of the class-1 probabilities.  There is at least one
    and there are at most [top_k] of them. *)
Theorem select_top_aligned top_k (o : outputs) h bs ls t :
  select_top top_k o h = (Ret (bs, ls), t) →
  t = [] ∧
  ∃ b l boxes0 logits0 bs' ls',
    bs = [b] ∧ ls = [l] ∧
    pred_boxes o = boxes0 :: bs' ∧ pred_logits o = logits0 :: ls' ∧
    Forall2 (λ i x, boxes0 !! i = Some x) (top_indices top_k logits0) b ∧
    Forall2 (λ i x, logits0 !! i = Some x) (top_indices top_k logits0) l ∧
    length b = length l ∧ (0 < length b ≤ top_k)%nat.
Proof.
  intros E. split.
  { apply silent_trace. pose proof (select_top_quiet (λ _, true) top_k o h) as Hq.
    by rewrite E in Hq. }
  unfold select_top, torch_stack in E. run_inv.
  match goal with
  | H : item0 (pred_logits o) _ = _ |- _ => apply item0_ret_inv in H as [ls' El]
  end.
  match goal with
  | H : mapM (λ row, item (softmax row) 1) _ _ = _ |- _ =>
      apply class1_ret_inv in H; subst
  end.
  match goal with
  | H : mret _ _ = (Ret (bs, ls), _) |- _ => apply mret_ret_inv in H as [[= -> ->] _]
  end.
  match goal with
  | H : context [class1 ?x] |- _ => fold (top_indices top_k x) in *
  end.
  match goal with
  | H : mapM (λ i, _ ← item0 (pred_boxes o); _) _ _ = _ |- _ =>
      apply rows_ret_inv in H as [? | (boxes0 & bs' & Eb & Hb)]; [done |]
  end.
  match goal with
  | H : mapM (λ i, _ ← item0 (pred_logits o); _) _ _ = _ |- _ =>
      apply rows_ret_inv in H as [? | (logits0 & ls'' & El' & Hl)]; [done |]
  end.
  rewrite El in El'. injection El' as <- <-.
  eexists _, _, boxes0, _, bs', ls'.
  split; [done |]. split; [done |]. split; [done |]. split; [done |].
  split; [exact Hb |]. split; [exact Hl |].
  apply Forall2_length in Hb, Hl. split; [congruence |].
  rewrite <- Hb. split; [rewrite Hb; simpl; lia |].
  unfold top_indices. rewrite length_take. lia.
Qed.
(** X16.  [viz] takes as many queries as the first image has
    ground-truth boxes.  For an image without boxes that is none: after the
    forward pass, [torch.stack] of line 397 is given an empty list and
    raises RuntimeError, and nothing is drawn or saved for the batch. *)
Theorem viz_without_boxes od samples (t0 : target) ts h logits0 ls :
  boxes t0 = [] →
  pred_logits (model_forward h (Some samples)) = logits0 :: ls →
  logits0 ≠ [] →
  Forall (λ row, is_Some (softmax row !! 1%nat)) logits0 →
  viz_batch od (samples, t0 :: ts) h
  = (Raise (RuntimeError "stack expects a non-empty TensorList"),
     [Forward (Some samples)]).
Proof.
  intros Hb El _ Hrow.
  assert (Es : ∀ h', select_top 0 (model_forward h (Some samples)) h'
                     = (Raise (RuntimeError "stack expects a non-empty TensorList"),
                        [])).
  { intros h'. unfold select_top. rewrite El, item0_cons, run_ret.
    assert (E1 : ∀ h', mapM (λ row, item (softmax row) 1) logits0 h'
                       = (Ret (class1 logits0), [])).
    { intros h''. apply mapM_run. eapply Forall_impl; [exact Hrow |].
      intros row [p Hp]. exists p. split; [done |]. intros h3.
      unfold item. by rewrite Hp. }
    by rewrite (run_bind_ret _ _ _ _ _ (E1 _)). }
  unfold viz_batch. rewrite item0_cons, run_ret, Hb. cbn [length].
  rewrite run_call. cbv beta. by rewrite (run_bind_raise _ _ _ _ _ (Es _)).
Qed.
(** ** plot_result and plot_results *)

Lemma label_loop_silent cn (t : itensor) :
  quiet (F := F) (λ _, true) (label_loop cn t).
Proof. unfold label_loop, label_step, item. quiet_tac. Qed.

Lemma label_loop_no_exit cn (t : itensor) : no_exit (F := F) (label_loop cn t).
Proof.
  unfold label_loop. generalize (seq 0 (length (ivals t))).
  generalize (t, @nil string). intros st xs. revert st.
  induction xs as [|i xs IH]; intros st; cbn [for_each]; [apply no_exit_ret |].
  apply no_exit_bind; [| intros ?; apply IH].
  unfold label_step, item. no_exit_tac.
Qed.

(** X17.  [plot_result] looks up every class name before it touches the
    axes: a run that raises (no box or logits tensor for the first image, a
    class name that is missing) has made no matplotlib call at all, and a
    run that returns has shown the cropped image first and then drawn, for
    each entry in turn, one rectangle of line width 2 followed by its text.
    No run ends the process. *)
Theorem plot_result_draws_after_lookup image bs ls c pt cn (t : itensor) h :
  (∀ e, (plot_result image bs ls c pt cn t h).1 = Raise e →
        (plot_result image bs ls c pt cn t h).2 = []) ∧
  (∀ t', (plot_result image bs ls c pt cn t h).1 = Ret t' →
         ∃ entries,
           (plot_result image bs ls c pt cn t h).2
           = Imshow (crop image) true :: drawn c pt entries) ∧
  (∀ code, (plot_result image bs ls c pt cn t h).1 ≠ Exit code).
Proof.
  unfold plot_result.
  destruct bs as [|out_bbox bs]; [cbn [item0]; by rewrite run_raise |].
  rewrite item0_cons, run_ret.
  destruct ls as [|logits0 ls]; [cbn [item0]; by rewrite run_raise |].
  rewrite item0_cons, run_ret. cbv zeta.
  set (loop := if negb pt then label_loop cn t else _).
  assert (Hl : (∃ r, loop h = (Ret r, [])) ∨ (∃ e, loop h = (Raise e, []))).
  { unfold loop. destruct pt; cbn [negb].
    - rewrite run_bind.
      pose proof (label_loop_silent cn
        {| dtype := Int64;
           ivals := map (λ row, Z.of_nat (max_last row).2)
                      (mask_select (keep logits0) (probas logits0)) |} h) as Hq.
      pose proof (label_loop_no_exit cn
        {| dtype := Int64;
           ivals := map (λ row, Z.of_nat (max_last row).2)
                      (mask_select (keep logits0) (probas logits0)) |} h) as Hx.
      destruct (label_loop _ _ h) as [[[t' names]|e|code] tr]; cbn [fst snd] in *.
      + apply silent_trace in Hq as ->. left. by eexists.
      + apply silent_trace in Hq as ->. right. by eexists.
      + by destruct (Hx code).
    - pose proof (label_loop_silent cn t h) as Hq.
      pose proof (label_loop_no_exit cn t h) as Hx.
      destruct (label_loop cn t h) as [[r|e|code] tr]; cbn [fst snd] in *.
      + apply silent_trace in Hq as ->. left. by eexists.
      + apply silent_trace in Hq as ->. right. by eexists.
      + by destruct (Hx code). }
  destruct Hl as [[[t' names] E] | [e E]].
  - rewrite (run_bind_ret _ _ _ _ _ E). unfold plot_image. rewrite run_emit.
    rewrite (run_bind_ret _ _ _ _ _ (draw_loop_run _ _ _ _)), run_mret.
    cbn [fst snd app]. rewrite app_nil_r.
    split; [done |]. split; [| done]. intros t'' _. by eexists.
  - rewrite (run_bind_raise _ _ _ _ _ E). by split; [| split].
Qed.
Lemma outline_loop_run {Pr : Type} c (prob : list Pr) (boxes : list box) h :
  for_each (zip prob boxes)
    (λ '(p, (xmin, ymin, xmax, ymax)) _,
       emit (AddPatch xmin ymin (fsub xmax xmin) (fsub ymax ymin) c 1)) tt h
  = (Ret tt, outline c <$> take (length prob) boxes).
Proof.
  revert boxes h. induction prob as [|p prob IH]; intros boxes h; [done |].
  destruct boxes as [|[[[xmin ymin] xmax] ymax] boxes]; [done |].
  cbn [zip zip_with for_each length take fmap list_fmap].
  rewrite run_emit, IH. reflexivity.
Qed.

(** X18.  When [plot_results] returns, it has shown the image,
    normalised or not as [norm] says, and then, if both [prob] and [boxes]
    were given, outlined the boxes in colour [c] with line width 1, one
    rectangle for each of the first [len(prob)] boxes, in order.  It has
    added no text, and [plot_prob] has no effect: the code that read it is
    commented out. *)
Theorem plot_results_outlines {Pr : Type} pil_img (prob : option (list Pr))
    (boxes : option (list box)) c plot_prob norm h tr :
  plot_results pil_img prob boxes c plot_prob norm h = (Ret tt, tr) →
  tr = Imshow pil_img norm
         :: match prob, boxes with
            | Some prob, Some boxes => outline c <$> take (length prob) boxes
            | _, _ => []
            end ∧
  plot_results pil_img prob boxes c plot_prob norm
  = plot_results pil_img prob boxes c (negb plot_prob) norm.
Proof.
  intros E. split; [| reflexivity].
  unfold plot_results, plot_image in E. rewrite run_emit in E.
  destruct prob as [prob|], boxes as [boxes|];
    rewrite ?outline_loop_run in E; by injection E as <-.
Qed.
(** ** plot_result: removing the zero padding *)

Lemma mask_select_count {A} (m : list bool) (xs : list A) :
  length m = length xs →
  length (mask_select m xs) = length (filter (λ b, b = true) m).
Proof.
  unfold mask_select. rewrite length_fmap. revert xs.
  induction m as [|b m IH]; intros [|x xs] E; try done.
  injection E as E. cbn [zip zip_with]. destruct b.
  - rewrite !filter_cons_True by done. simpl. f_equal. by apply IH.
  - rewrite !filter_cons_False by done. by apply IH.
Qed.

Lemma all_true_replicate (m : list bool) :
  Forall (λ b, b = true) m → m = replicate (length m) true.
Proof. induction 1 as [|b m -> _ IH]; [done |]. simpl. by f_equal. Qed.

Lemma mask_select_in {A} (m : list bool) (xs : list A) x :
  x ∈ mask_select m xs → x ∈ xs.
Proof.
  unfold mask_select. rewrite list_elem_of_fmap. intros ([b y] & -> & Hin).
  apply list_elem_of_filter in Hin as [_ Hin]. simpl.
  by apply elem_of_zip_r in Hin.
Qed.

Lemma mask_rows_length (image : image_tensor) rows cols :
  has_shape rows cols image → image ≠ [] → length (mask_rows image) = rows.
Proof.
  intros Hs Hne. unfold mask_rows. rewrite length_map, length_seq.
  destruct image as [|ch image]; [done |]. cbn [hd].
  by apply Forall_cons in Hs as [[Hl _] _].
Qed.

(** X19.  The crop of lines 338-344 yields a tensor with the same
    number of channels whose every channel has as many rows as the image
    has rows with a nonzero pixel and whose every row has as many entries as
    the image has columns with one: [img_w] and [img_h], by which the
    boxes are scaled, are the width and height of the cropped image. *)
Theorem crop_shape (image : image_tensor) rows cols :
  has_shape rows cols image →
  (0 < rows)%nat →
  length (crop image) = length image ∧
  has_shape (image_size image).2 (image_size image).1 (crop image).
Proof.
  intros Hs Hrows. split; [unfold crop; by rewrite length_map |].
  unfold has_shape, crop, image_size. cbn [fst snd].
  destruct image as [|ch0 image]; [constructor |].
  assert (Hr : length (mask_rows (ch0 :: image)) = rows)
    by (by apply (mask_rows_length _ rows cols)).
  assert (Hc : length (mask_cols (ch0 :: image)) = cols).
  { unfold mask_cols. rewrite length_map, length_seq. cbn [hd].
    apply Forall_cons in Hs as [[Hl Hrow] _].
    destruct ch0 as [|row0 ch0]; [simpl in Hl; lia |].
    cbn [hd]. by apply Forall_cons in Hrow as [Hrow0 _]. }
  rewrite Forall_fmap. eapply Forall_impl; [exact Hs |].
  intros ch [Hl Hrow]. cbn beta. split.
  - rewrite length_map. apply mask_select_count. by rewrite Hr.
  - rewrite Forall_fmap. rewrite Forall_forall. intros row Hin.
    apply mask_select_in in Hin. rewrite Forall_forall in Hrow.
    cbn beta. apply mask_select_count. rewrite Hc. symmetry. by apply Hrow.
Qed.

(** X20.  An image without zero padding, one in which every row and
    every column has a nonzero pixel, is left as it is by the crop. *)
Theorem crop_unpadded (image : image_tensor) rows cols :
  has_shape rows cols image →
  (0 < rows)%nat →
  Forall (λ b, b = true) (mask_rows image) →
  Forall (λ b, b = true) (mask_cols image) →
  crop image = image.
Proof.
  intros Hs Hrows Hr Hc. unfold crop.
  destruct image as [|ch0 image]; [done |].
  assert (Lr : length (mask_rows (ch0 :: image)) = rows)
    by (by apply (mask_rows_length _ rows cols)).
  assert (Lc : length (mask_cols (ch0 :: image)) = cols).
  { unfold mask_cols. rewrite length_map, length_seq. cbn [hd].
    apply Forall_cons in Hs as [[Hl Hrow] _].
    destruct ch0 as [|row0 ch0]; [simpl in Hl; lia |].
    cbn [hd]. by apply Forall_cons in Hrow as [Hrow0 _]. }
  rewrite (all_true_replicate _ Hr), (all_true_replicate _ Hc), Lr, Lc.
  rewrite <- (map_id (ch0 :: image)) at 2.
  apply Forall_fmap_ext_1. eapply Forall_impl; [exact Hs |].
  intros ch [Hl Hrow]. cbn beta. rewrite <- Hl, mask_select_all.
  rewrite <- (map_id ch) at 2. apply Forall_fmap_ext_1.
  eapply Forall_impl; [exact Hrow |]. intros row <-. apply mask_select_all.
Qed.
(** ** plot_result: the clamp of the class index *)

Lemma text_of_drawn c pt (entries : list (F * box * string)) :
  omap text_of (drawn c pt entries) = (λ e : F * box * string, e.2) <$> entries.
Proof.
  unfold drawn.
  induction entries as [|[[p [[[xmin ymin] xmax] ymax]] label] entries IH]; [done |].
  cbn [fmap list_fmap mjoin list_join app omap list_omap text_of].
  destruct pt; cbn [omap list_omap text_of snd]; by f_equal.
Qed.

Lemma zip3_names {A B} (ps : list A) (bs : list B) (names : list string) name :
  Forall (λ n, n = name) names →
  Forall (λ n, n = name) ((λ e : A * B * string, e.2) <$> zip3 ps bs names).
Proof.
  intros Hn. unfold zip3. rewrite Forall_fmap, Forall_forall. intros [[p b] n] Hin.
  apply elem_of_zip_r in Hin. rewrite Forall_forall in Hn. by apply Hn.
Qed.

(** X21.  Because of the increment and the clamp of lines 356-357, when
    [plot_result] returns from drawing ground-truth labels that are all 19
    or more (and below the largest value of their dtype), every label has
    been stored back as 20 and every text it has added reads tvmonitor. *)
Theorem labels_from_19_are_tvmonitor image bs ls c (t t' : itensor) h tr :
  Forall (λ l, 19 ≤ l < dtype_max (dtype t)) (ivals t) →
  plot_result image bs ls c false class_name t h = (Ret t', tr) →
  t' = {| dtype := dtype t; ivals := replicate (length (ivals t)) 20 |} ∧
  Forall (λ s, s = "tvmonitor") (omap text_of tr).
Proof.
  intros Ht E.
  assert (Hb : Forall (λ l, bump (dtype t) l = 20) (ivals t)).
  { eapply Forall_impl; [exact Ht |]. intros l Hl. cbn beta in Hl.
    assert (Hr : in_dtype_range (dtype t) l) by (unfold in_dtype_range; lia).
    destruct (bump_in_range (dtype t) l Hr) as [-> _]. lia. }
  destruct bs as [|out_bbox bs]; [discriminate E |].
  destruct ls as [|logits0 ls]; [discriminate E |].
  destruct (plot_result_ground_truth image out_bbox bs logits0 ls c class_name t h)
    as (names & Hn & E').
  { eapply Forall_impl; [exact Hb |]. intros l ->. by eexists. }
  rewrite E' in E. injection E as <- <-. split.
  - f_equal. clear -Hb. induction Hb as [|l vals Hl _ IH]; [done |].
    cbn [fmap list_fmap length replicate]. by rewrite Hl, <- IH.
  - cbn [omap list_omap text_of]. rewrite text_of_drawn. apply zip3_names.
    assert (H20 : class_name !! pretty 20 = Some "tvmonitor")
      by (vm_compute; reflexivity).
    unfold names_of in Hn. clear -Hn Hb H20.
    induction Hn as [|l name vals names Hl _ IH]; [constructor |].
    apply Forall_cons in Hb as [Hl20 Hb]. constructor; [| by apply IH].
    rewrite Hl20, H20 in Hl. congruence.
Qed.
(** ** evaluate: the stages of a batch *)

Lemma in_order_bind_val {A B C} (f : event F → option B) (m : M F A)
    (k : A → M F C) (Q : A → Prop) l1 l2 :
  in_order f m l1 →
  (∀ h a t, m h = (Ret a, t) → Q a) →
  (∀ a, Q a → in_order f (k a) l2) →
  in_order f (m ≫= k) (l1 ++ l2).
Proof.
  intros Hm HQ Hk h. rewrite run_bind. destruct (Hm h) as [Hp Hr].
  specialize (HQ h).
  destruct (m h) as [[a|e|c] t1]; simpl in *.
  - rewrite omap_app, (Hr a eq_refl).
    destruct (Hk a (HQ a t1 eq_refl) (h ++ t1)) as [Hp2 Hr2].
    split; [by apply prefix_app | intros c E; by rewrite (Hr2 c E)].
  - split; [by apply prefix_app_r | done].
  - split; [by apply prefix_app_r | done].
Qed.

Lemma evaluate_batch_stages pp b (st : eval_state) :
  in_order stage_of
           (evaluate_batch pp "vis" (bool_decide ("panoptic" ∈ pp)) b st)
           (stages pp).
Proof.
  destruct b as [samples [|t0 ts]]; unfold evaluate_batch, evaluate_finish, stages.
  - apply in_order_raise_bind.
  - rewrite item0_cons, load_detections_vis.
    apply in_order_ret_bind, in_order_ret_bind.
    unfold item0, dict_item, py_kwargs.
    destruct (bool_decide ("segm" ∈ pp)), (bool_decide ("panoptic" ∈ pp)).
    all: eapply in_order_eq;
      [ repeat first [ apply measure_ap_in_order; done | in_order_step ]
      | reflexivity ].
Qed.
(** X22.  After measuring the average precisions, every batch of
    [evaluate] goes through the same stages in the same order: the figure is
    saved, the criterion computes the losses, the bbox postprocessor runs,
    then the segm postprocessor if there is one, then the evaluator is
    updated, and if there is a panoptic postprocessor it runs and the
    panoptic evaluator is updated last.  A run has gone through these stages
    batch after batch, up to the point where it stops. *)
Theorem evaluate_stages pp dl ds od :
  in_order stage_of (evaluate pp dl ds od)
           (mjoin (replicate (length dl) (stages pp))).
Proof.
  unfold evaluate, evaluate_loop, load_name. eapply in_order_eq.
  - apply in_order_bind; [| intros ?; repeat in_order_step].
    do 2 (apply in_order_bind; [in_order_step | intros ?]).
    apply in_order_bind;
      [eapply in_order_eq; [apply in_order_emit | reflexivity] | intros ?].
    apply (in_order_bind_val _ _ _ (λ pan, pan = bool_decide ("panoptic" ∈ pp))).
    + case_bool_decide; repeat in_order_step.
    + intros h pan t E. case_bool_decide; by run_inv.
    + intros pan ->.
      apply (in_order_for_each stage_of dl _ (λ _, stages pp)).
      intros b s. apply evaluate_batch_stages.
  - rewrite (const_fmap _ _ (stages pp)) by done.
    destruct (contains "COCO" ds); cbn [stage_of option_list app];
      by rewrite app_nil_r.
Qed.

End Properties.

(** * The launcher *)

(** C9.  Running bash.py makes one [subprocess.run] call, on the script
    ./configs/DETReg_fine_tune_full_pascal.sh followed by --resume, the
    checkpoint path and --viz, followed by the arguments of bash.py itself,
    unchanged and in their order. *)
Theorem command_passes_arguments (script : string) (args : list string) :
  Bash.main (script :: args)
  = [ Bash.SubprocessRun
        ([ "./configs/DETReg_fine_tune_full_pascal.sh"; "--resume";
           "exps/DETReg_fine_tune_full_pascal/checkpoint0099.pth"; "--viz" ]
           ++ args) ].
Proof.
  unfold Bash.main, Bash.command, Bash.PY_ARGS.
  (* sys.argv[1:] drops the script's own name and nothing else *)
  rewrite skipn_cons, drop_0. reflexivity.
Qed.

(** * Concrete runs *)

Import Run.

(** C1 at a batch whose loss is not a number: the batch exits with status 1
    right after the two prints. *)
Lemma train_batch_loss_check_witness :
  train_forward (FW := fw_nan) None first_state [] = (Ret nan_info, nan_trace) ∧
  train_batch (FW := fw_nan) None (Fin 0) first_state []
  = (Exit 1,
     nan_trace ++ [MathIsfinite NaN; PrintLossStop NaN; PrintLossDict nan_loss]).
Proof.
  assert (E : train_forward (FW := fw_nan) None first_state []
              = (Ret nan_info, nan_trace)) by (vm_compute; reflexivity).
  split; [exact E |].
  destruct (train_batch_loss_check (FW := fw_nan) None (Fin 0) first_state []
              nan_info nan_trace E) as (_ & Hstop & _).
  apply Hstop. reflexivity.
Defined.

(** The claim C6 as stated fails on a batch whose loss is not a number:
    [max_norm] is positive, but the batch ends at the finiteness check, so
    that the gradient zeroing, the backward pass, the gradient-norm call and
    the optimizer step do not occur and no gradient is clipped. *)
Lemma train_batch_stops_at_check :
  fgt (Fin 1) (of_Z 0) = true ∧
  (train_batch (FW := fw_nan) None (Fin 1) first_state []).1 = Exit 1 ∧
  omap op_of (train_batch (FW := fw_nan) None (Fin 1) first_state []).2
  = [OpForward; OpCriterion; OpFiniteCheck] ∧
  omap handling_of (train_batch (FW := fw_nan) None (Fin 1) first_state []).2 = [].
Proof. split; [| split; [| split]]; vm_compute; reflexivity. Qed.

(** C6, amended, on a batch with a finite loss and a positive [max_norm]. *)
Lemma train_batch_operations_witness :
  omap op_of (train_batch (FW := fw_good) None (Fin 1) first_state []).2
  = batch_order ∧
  omap handling_of (train_batch (FW := fw_good) None (Fin 1) first_state []).2
  = [Clipped (Fin 1)].
Proof.
  pose (r := train_forward (FW := fw_good) None first_state []).
  assert (E : r = (Ret (match r.1 with Ret x => x | _ => some_info end), r.2))
    by (vm_compute; reflexivity).
  unfold r in E.
  destruct (train_batch_operations (FW := fw_good) None (Fin 1) first_state []
              _ _ (Fin 6) E) as ((o & t2 & Eb & Ho & Hh) & _).
  - vm_compute. reflexivity.
  - vm_compute. reflexivity.
  - split; [exact Ho | exact Hh].
Defined.

(** C2 at a one-batch loader: the loop completes and the return statement
    raises NameError. *)
Lemma evaluate_raises_name_error_witness :
  ∃ st t,
    evaluate_loop (FW := fw_good) ["bbox"] [a_batch two_boxes] "CocoDetection" "out" []
    = (Ret st, t) ∧
    evaluate (FW := fw_good) ["bbox"] [a_batch two_boxes] "CocoDetection" "out" []
    = (Raise (NameError "stats"), t).
Proof.
  pose (r := evaluate_loop (FW := fw_good) ["bbox"] [a_batch two_boxes]
               "CocoDetection" "out" []).
  assert (E : r = (Ret (match r.1 with Ret s => s | _ => eval_start end), r.2))
    by (vm_compute; reflexivity).
  exists (match r.1 with Ret s => s | _ => eval_start end), r.2.
  unfold r in *. split; [exact E |].
  exact (proj1 (evaluate_raises_name_error (FW := fw_good) _ _ _ _ _ _ _ E)).
Defined.


(** The claim C4 as stated, average precision over the first image's
    predictions kept at confidence above 0.01, fails on eleven queries of
    confidence 1/2 for the one ground-truth class: all eleven are kept, but
    every [average_precision_score] call gets the scores of ten. *)
Lemma evaluate_ap_not_over_all_predictions :
  length (filter (λ keep, keep = true) (keep (FW := fw11) (replicate 11 (zeros 2))))
  = 11%nat ∧
  length (class_scores (FW := fw11) (replicate 11 (zeros 2)) 0) = 11%nat ∧
  omap ap_size_of
       (evaluate_batch (FW := fw11) ["bbox"] "vis" false (a_batch one_box) eval_start []).2
  = replicate 102 10%nat.
Proof. split; [| split]; vm_compute; reflexivity. Qed.

(** C4, amended, at that batch. *)
Lemma evaluate_batch_measures_ap_witness :
  length (coco_thresholds (FW := fw11)) = 101%nat ∧
  NoDup (ivals (labels one_box)) ∧
  length (ivals (labels one_box)) = length (boxes one_box) ∧
  ∃ o rest,
    evaluate_batch (FW := fw11) ["bbox"] "vis" false (a_batch one_box) eval_start []
    = (o, [Forward (Some {| tensors := [an_image] |}); Gca]
          ++ mjoin ((λ cls, class_report (FW := fw11) "img_7.jpg" cls
                              (class_scores (FW := fw11)
                                 (omap (replicate 11 (zeros 2) !!.)
                                       (top_indices (FW := fw11) 10
                                                    (replicate 11 (zeros 2))))
                                 cls))
                      <$> [0])
          ++ rest) ∧
    quiet_trace is_own_metric rest.
Proof.
  assert (Hlin : length (coco_thresholds (FW := fw11)) = 101%nat)
    by (vm_compute; reflexivity).
  assert (Hnd : NoDup (ivals (labels one_box))).
  { apply (bool_decide_unpack _). vm_compute. exact I. }
  split; [exact Hlin |]. split; [exact Hnd |]. split; [reflexivity |].
  apply (evaluate_batch_measures_ap (FW := fw11) ["bbox"] false
           {| tensors := [an_image] |} one_box [] ∅ None [] an_image []
           (replicate 11 (zeros 2)) []
           (a_box <$> (Z.of_nat <$> seq 0 11)) []);
    try reflexivity; try exact Hlin; try exact Hnd.
  - apply (bool_decide_unpack _). vm_compute. exact I.
  - vm_compute. discriminate.
  - apply (bool_decide_unpack _). vm_compute. exact I.
Defined.



Ltac in_range :=
  match goal with
  | |- Forall ?P ?l => let l' := eval vm_compute in l in change (Forall P l')
  end;
  repeat first
    [ apply Forall_nil_2
    | apply Forall_cons; split; [split; [discriminate | reflexivity] |] ].



(** The claim C10 as stated fails at the largest int64: the increment
    wraps around, the clamp leaves the negative value, and the lookup of its
    decimal string raises KeyError. *)
Lemma plot_result_key_error :
  0 ≤ 2 ^ 63 - 1 ∧
  plot_result (FW := fw_good) an_image [[a_box 1]] [[zeros 4]] "r" false class_name
              {| dtype := Int64; ivals := [2 ^ 63 - 1] |} []
  = (Raise (KeyError "-9223372036854775808"), []).
Proof. split; [done | vm_compute; reflexivity]. Qed.

(** C10, amended, on the labels 5 and 19. *)
Lemma plot_result_class_names_witness :
  in_dtype_range Int64 5 ∧
  Forall (in_dtype_range Int64) (ivals (labels two_boxes)) ∧
  Forall (in_dtype_range Int64) (ivals (kept_cls (FW := fw_good) (replicate 3 (zeros 2)))) ∧
  bump Int64 5 = 6 ∧
  class_name !! pretty (bump Int64 5) = Some "bus" ∧
  ∃ tr,
    plot_result (FW := fw_good) an_image [[a_box 7; a_box 8]]
                [replicate 2 (zeros 4)] "r" false class_name (labels two_boxes) []
    = (Ret {| dtype := Int64; ivals := [6; 20] |}, tr).
Proof.
  assert (H5 : in_dtype_range Int64 5) by (split; [discriminate | reflexivity]).
  assert (Hg : Forall (in_dtype_range Int64) (ivals (labels two_boxes))) by in_range.
  assert (Hp : Forall (in_dtype_range Int64)
                 (ivals (kept_cls (FW := fw_good) (replicate 3 (zeros 2)))))
    by in_range.
  split; [exact H5 |]. split; [exact Hg |]. split; [exact Hp |].
  destruct (plot_result_class_names (FW := fw_good) Int64 5 an_image
              [a_box 7; a_box 8] [] (replicate 2 (zeros 4)) [] "r"
              (labels two_boxes) [] H5 Hg)
    as ((Hb & _ & _) & (tr & E) & _).
  - in_range.
  - split; [vm_compute; reflexivity |]. split; [vm_compute; reflexivity |].
    exists tr. exact E.
Defined.


(** ** The further properties on concrete runs *)

(** X2 on two batches whose reduced scaled loss is 2 * 3. *)
Lemma train_loss_average_witness :
  ∃ d t,
    train_one_epoch (FW := fw_good) None [a_batch two_boxes; a_batch two_boxes] 0
                    (Fin 0) [] = (Ret d, t) ∧
    length (omap finite_check_of t) = 2%nat ∧
    is_Some (d !! "loss").
Proof.
  destruct (train_epoch_runs (FW := fw_good) None
              [a_batch two_boxes; a_batch two_boxes] 0 (Fin 0) []
              ltac:(discriminate) ltac:(vm_compute; reflexivity)) as (d & t & E).
  exists d, t. split; [exact E |].
  destruct (train_loss_average (FW := fw_good) _ _ _ _ _ _ _ E ltac:(discriminate))
    as [Hl Hd].
  split; [exact Hl |]. eexists. exact Hd.
Defined.

(** X3 under a criterion with an empty weight dictionary. *)
Lemma train_no_weighted_loss_witness :
  (train_batch (FW := fw_unweighted) None (Fin 0) first_state []).1
  = Raise (AttributeError "item").
Proof.
  destruct (train_no_weighted_loss (FW := fw_unweighted) None (Fin 0) first_state []
              (or_introl eq_refl) (λ _ _ _ _ _, eq_refl)) as (t & E & _).
  by rewrite E.
Defined.

(** X4 under a criterion whose dictionary has no class_error entry: the
    KeyError comes after the optimizer step. *)
Lemma train_missing_class_error_witness :
  ∃ t,
    train_batch (FW := fw_no_class_error) None (Fin 0) first_state []
    = (Raise (KeyError "class_error"), t) ∧
    omap op_of t = batch_order.
Proof.
  pose (r := train_forward (FW := fw_no_class_error) None first_state []).
  assert (E : r = (Ret (match r.1 with Ret x => x | _ => some_info end), r.2))
    by (vm_compute; reflexivity).
  unfold r in E. eexists. split.
  - apply (train_missing_class_error (FW := fw_no_class_error) None (Fin 0)
             first_state [] _ _ (Fin 6) E).
    + vm_compute. reflexivity.
    + vm_compute. reflexivity.
    + apply (bool_decide_unpack _). vm_compute. exact I.
    + vm_compute. reflexivity.
  - vm_compute. reflexivity.
Defined.

(** X5 under a criterion whose weighted loss is named loss. *)
Lemma train_loss_keyword_clash_witness :
  ∃ t,
    train_batch (FW := fw_loss_named) None (Fin 0) first_state []
    = (Raise (TypeError "got multiple values for keyword argument"), t) ∧
    omap op_of t = batch_order.
Proof.
  pose (r := train_forward (FW := fw_loss_named) None first_state []).
  assert (E : r = (Ret (match r.1 with Ret x => x | _ => some_info end), r.2))
    by (vm_compute; reflexivity).
  unfold r in E. eexists. split.
  - apply (train_loss_keyword_clash (FW := fw_loss_named) None (Fin 0)
             first_state [] _ _ (Fin 6) E).
    + vm_compute. reflexivity.
    + vm_compute. reflexivity.
    + apply (bool_decide_unpack _). vm_compute. exact I.
  - vm_compute. reflexivity.
Defined.

(** X10 on two targets with the labels 5 and 19 and different boxes. *)
Lemma measure_ap_ignores_boxes_witness :
  measure_ap (FW := fw_good) "img_42.jpg" [replicate 3 (zeros 2)]
             (a_target [a_box 1; a_box 2] [5; 19] 42)
  = measure_ap (FW := fw_good) "img_42.jpg" [replicate 3 (zeros 2)] two_boxes.
Proof.
  apply (measure_ap_ignores_boxes (FW := fw_good)); reflexivity.
Defined.

(** X11 with a postprocessor for segm only. *)
Lemma evaluate_needs_bbox_witness :
  ("bbox" ∉ ["segm"]) ∧
  quiet is_after_bbox (evaluate (FW := fw_good) ["segm"] [a_batch two_boxes] "VOC" "out").
Proof.
  assert (Hb : "bbox" ∉ ["segm"]) by (apply (bool_decide_unpack _); vm_compute; exact I).
  split; [exact Hb |]. exact (evaluate_needs_bbox (FW := fw_good) _ _ _ _ Hb).
Defined.

(** X12 with postprocessors for bbox and panoptic: the run ends in
    UnboundLocalError after its one evaluator update. *)
Lemma evaluate_panoptic_needs_segm_witness :
  (evaluate (FW := fw_good) ["bbox"; "panoptic"] [a_batch two_boxes] "VOC" "out" []).1
  = Raise (UnboundLocalError "target_sizes") ∧
  quiet is_panoptic_use
        (evaluate (FW := fw_good) ["bbox"; "panoptic"] [a_batch two_boxes] "VOC" "out").
Proof.
  destruct (evaluate_panoptic_needs_segm (FW := fw_good) ["bbox"; "panoptic"]
              [a_batch two_boxes] "VOC" "out") as [Hr Hq].
  - apply (bool_decide_unpack _). vm_compute. exact I.
  - apply (bool_decide_unpack _). vm_compute. exact I.
  - split; [| exact Hq]. vm_compute. reflexivity.
Defined.

(** X15 on three queries, of which two are taken. *)
Lemma select_top_aligned_witness :
  select_top (FW := fw_good) 2 out3 []
  = (Ret ([[a_box 1; a_box 2]], [replicate 2 (zeros 2)]), []) ∧
  top_indices (FW := fw_good) 2 (replicate 3 (zeros 2)) = [0; 1]%nat.
Proof.
  assert (E : select_top (FW := fw_good) 2 out3 []
              = (Ret ([[a_box 1; a_box 2]], [replicate 2 (zeros 2)]), []))
    by (vm_compute; reflexivity).
  split; [exact E |].
  destruct (select_top_aligned (FW := fw_good) _ _ _ _ _ _ E) as [_ _].
  vm_compute. reflexivity.
Defined.

(** X16 on a first image without ground-truth boxes. *)
Lemma viz_without_boxes_witness :
  viz_batch (FW := fw_good) "vis" (a_batch no_boxes) []
  = (Raise (RuntimeError "stack expects a non-empty TensorList"),
     [Forward (Some {| tensors := [an_image] |})]).
Proof.
  apply (viz_without_boxes (FW := fw_good) "vis" {| tensors := [an_image] |}
           no_boxes [] [] (replicate 3 (zeros 2)) []).
  - reflexivity.
  - reflexivity.
  - vm_compute. discriminate.
  - apply (bool_decide_unpack _). vm_compute. exact I.
Defined.

(** X18 on two scores and three boxes. *)
Lemma plot_results_outlines_witness :
  plot_results (F := num) an_image (Some [Fin 1; Fin 1])
               (Some [a_box 1; a_box 2; a_box 3]) "b" true false []
  = (Ret tt, [Imshow an_image false; outline "b" (a_box 1); outline "b" (a_box 2)]).
Proof.
  assert (E : ∃ tr, plot_results (F := num) an_image (Some [Fin 1; Fin 1])
                      (Some [a_box 1; a_box 2; a_box 3]) "b" true false []
                    = (Ret tt, tr)) by (eexists; reflexivity).
  destruct E as [tr E]. rewrite E. f_equal.
  by destruct (plot_results_outlines _ _ _ _ _ _ _ _ E) as [-> _].
Defined.

(** X19 and X20 on 2 x 2 images. *)
Lemma crop_shape_witness :
  has_shape 2 2 an_image ∧
  image_size (F := num) an_image = (1, 1)%nat ∧
  has_shape 1 1 (crop (F := num) an_image).
Proof.
  assert (Hs : has_shape 2 2 an_image) by (repeat constructor).
  split; [exact Hs |]. split; [vm_compute; reflexivity |].
  exact (proj2 (crop_shape an_image 2 2 Hs ltac:(lia))).
Defined.

Lemma crop_unpadded_witness :
  has_shape 2 2 full_image ∧ crop (F := num) full_image = full_image.
Proof.
  assert (Hs : has_shape 2 2 full_image) by (repeat constructor).
  split; [exact Hs |].
  apply (crop_unpadded full_image 2 2 Hs); [lia | |].
  - apply (bool_decide_unpack _). vm_compute. exact I.
  - apply (bool_decide_unpack _). vm_compute. exact I.
Defined.

(** X21 on the labels 19 and 50. *)
Lemma labels_from_19_are_tvmonitor_witness :
  ∃ tr,
    plot_result (FW := fw_good) an_image [[a_box 7; a_box 8]]
                [replicate 2 (zeros 4)] "r" false class_name (labels late_classes) []
    = (Ret {| dtype := Int64; ivals := [20; 20] |}, tr) ∧
    omap text_of tr = ["tvmonitor"; "tvmonitor"].
Proof.
  pose (r := plot_result (FW := fw_good) an_image [[a_box 7; a_box 8]]
               [replicate 2 (zeros 4)] "r" false class_name (labels late_classes) []).
  assert (E : r = (Ret {| dtype := Int64; ivals := [20; 20] |}, r.2))
    by (vm_compute; reflexivity).
  exists r.2. unfold r in *. split; [exact E |].
  assert (Hl : Forall (λ l, 19 ≤ l < dtype_max (dtype (labels late_classes)))
                      (ivals (labels late_classes))).
  { repeat first
      [ apply Forall_nil_2
      | apply Forall_cons; split; [split; [discriminate | reflexivity] |] ]. }
  destruct (labels_from_19_are_tvmonitor (FW := fw_good) _ _ _ _ _ _ _ _ Hl E)
    as [_ _].
  vm_compute. reflexivity.
Defined.
